(** * PyInputPlus: the prompt / validate / retry loop

    A shallow embedding of [src/pyinputplus/core.py] (the evaluator
    [_check_limit_and_timeout] and the loop [_generic_input]) and of the
    two numeric wrappers of [src/pyinputplus/inputs.py] ([inputInt] and
    [inputFloat]), followed by the properties of the loop.

    Conventions of the embedding.
    - Python values are first-order data ([pyval]); an argument that may be
      a function is a [pyarg].
    - Timestamps are Python floats.  The development is parametric in the
      float type and in its [+], [<] and [<=] ([FloatOps]); nothing is
      assumed about them except where a lemma says so.
    - The console is a finite list of pending input lines; reading past
      its end raises [EOFError], as [input()] does at end of file.
    - [time.time()] is a function of the number of clock readings made so
      far; every reading advances that number.
    - Everything the loop does to the outside is appended to a trace.
    - A [string] is a sequence of characters and [length] counts them. *)

From Stdlib Require Import ZArith List String Bool Lia.
Import ListNotations.
Local Open Scope Z_scope.
Local Open Scope string_scope.

(** ** Exceptions ([exceptions.py] and the builtins the loop meets) *)

Inductive exc_class :=
| PyInputPlusError
| ValidationError
| PyIPTimeoutError
| RetryLimitError
| EOFError
| TypeError
| ValueError
| KeyboardInterrupt
| OtherException (name : string).

Record exc := mkExc { exc_cls : exc_class; exc_msg : string }.

(** [isinstance(e, Exception)]: every class above derives from
    [Exception] except [KeyboardInterrupt], a [BaseException]. *)
Definition is_Exception (e : exc) : bool :=
  match exc_cls e with
  | KeyboardInterrupt => false
  | _ => true
  end.

(** The two values the evaluator can hand back besides [None]. *)
Inductive limit_error := TimeoutExceeded | RetryLimitExceeded.

Definition exc_of_limit_error (le : limit_error) : exc :=
  match le with
  | TimeoutExceeded => mkExc PyIPTimeoutError EmptyString
  | RetryLimitExceeded => mkExc RetryLimitError EmptyString
  end.

(** ** Python floats, left abstract

    [start_time], [timeout] and the readings of the clock are floats.  The
    loop only adds and compares them. *)

Class FloatOps := {
  float : Type;
  fadd : float -> float -> float;     (* x + y *)
  flt : float -> float -> bool;       (* x < y *)
  fle : float -> float -> bool;       (* x <= y *)
  float_of_int : Z -> float           (* the int operand of a mixed + *)
}.

Section Core.

Context {F : FloatOps}.

(** ** Values *)

Inductive pyval :=
| VNone
| VBool (b : bool)
| VInt (z : Z)
| VFloat (x : float)
| VStr (s : string)
| VObj (repr : string).     (* any other object, opaque to the loop *)

Inductive result := Ok (v : pyval) | Exc (e : exc).

(** An argument that is tested with [callable(...)]: it is callable when
    it is a [Callable]. *)
Inductive pyarg :=
| Data (v : pyval)
| Callable (f : pyval -> result).

Definition is_None (v : pyval) : bool :=
  match v with VNone => true | _ => false end.

(** [isinstance(v, (int, type(None)))]; [bool] is a subclass of [int]. *)
Definition isinstance_int_or_None (v : pyval) : bool :=
  match v with VNone | VBool _ | VInt _ => true | _ => false end.

(** [isinstance(v, (int, float, type(None)))]. *)
Definition isinstance_num_or_None (v : pyval) : bool :=
  match v with VNone | VBool _ | VInt _ | VFloat _ => true | _ => false end.

(** The operand [timeout] of [start_time + timeout], once it is known to
    be a number or [None]. *)
Definition timeout_of (v : pyval) : option float :=
  match v with
  | VBool b => Some (float_of_int (Z.b2z b))
  | VInt z => Some (float_of_int z)
  | VFloat x => Some x
  | _ => None
  end.

(** The operand [limit] of [tries >= limit]. *)
Definition limit_of (v : pyval) : option Z :=
  match v with
  | VBool b => Some (Z.b2z b)
  | VInt z => Some z
  | _ => None
  end.

(** ** The outside world *)

Inductive event :=
| EvPrint (s : string)                  (* print(prompt, end='') *)
| EvInput (line : string)               (* input() *)
| EvPwinput (mask line : string)        (* pwinput.pwinput(prompt='', mask=mask) *)
| EvApply (arg : pyval)                 (* apply_func(user_input) *)
| EvValidate (arg : pyval)              (* validation_func(user_input) *)
| EvPrintExc (e : exc)                  (* print(exc) *)
| EvLog (e : exc)                       (* logger.exception("UH_OH", exc_info=exc) *)
| EvPostValidate (arg : pyval).         (* post_validate_apply_func(user_input) *)

Record world := mkWorld {
  clock : nat -> float;     (* the n-th reading of time.time() *)
  ticks : nat;              (* readings made so far *)
  trace : list event        (* oldest first *)
}.

Definition emit (e : event) (w : world) : world :=
  mkWorld (clock w) (ticks w) (trace w ++ [e]).

(** [time.time()] *)
Definition time_time (w : world) : float * world :=
  (clock w (ticks w), mkWorld (clock w) (S (ticks w)) (trace w)).

(** ** The evaluator, [core.py] lines 29-51 *)

Definition _check_limit_and_timeout
    (start_time : float) (timeout : option float)
    (tries : Z) (limit : option Z) (w : world)
  : option limit_error * world :=
  let check_limit (w : world) :=
    match limit with
    | Some l => if tries >=? l then (Some RetryLimitExceeded, w) else (None, w)
    | None => (None, w)
    end in
  match timeout with
  | Some t =>
      let (now, w1) := time_time w in
      if flt (fadd start_time t) now
      then (Some TimeoutExceeded, w1)
      else check_limit w1
  | None => check_limit w
  end.

(** ** How a call of [_generic_input] ends

    One constructor per way out of the function body, so that a theorem
    can tell the default from a validated value that happens to equal it,
    and an error raised by the loop from one passing through it. *)

Inductive outcome :=
| ReturnDefault (v : pyval)           (* lines 149, 163: return default_value *)
| ReturnValue (v : pyval)             (* lines 167, 168 *)
| RaiseConfig (msg : string)          (* lines 89-107: raise PyInputPlusError(msg) *)
| RaiseLimitOrTimeout (le : limit_error)   (* line 151: raise limit_or_timeout_error *)
| RaiseTimeout                        (* line 164: raise PyIPTimeoutError *)
| Uncaught (e : exc).                 (* an exception of a callee, not handled *)

(** What the Python caller observes. *)
Definition observe (o : outcome) : result :=
  match o with
  | ReturnDefault v | ReturnValue v => Ok v
  | RaiseConfig msg => Exc (mkExc PyInputPlusError msg)
  | RaiseLimitOrTimeout le => Exc (exc_of_limit_error le)
  | RaiseTimeout => Exc (mkExc PyIPTimeoutError EmptyString)
  | Uncaught e => Exc e
  end.

(** ** A state monad with early exit

    A computation either goes on with a value or leaves the function with
    an [outcome]; the world is threaded through both. *)

Definition M (A : Type) : Type := world -> (A + outcome) * world.

Definition ret {A} (a : A) : M A := fun w => (inl a, w).

Definition exit {A} (o : outcome) : M A := fun w => (inr o, w).

Definition bind {A B} (m : M A) (k : A -> M B) : M B :=
  fun w =>
    match m w with
    | (inl a, w') => k a w'
    | (inr o, w') => (inr o, w')
    end.

Notation "x <- m ;; k" := (bind m (fun x => k))
  (at level 61, m at next level, right associativity).
Notation "m ;; k" := (bind m (fun _ => k))
  (at level 61, right associativity).

Definition say (e : event) : M unit := fun w => (inl tt, emit e w).

Definition now : M float := fun w => let (t, w') := time_time w in (inl t, w').

Definition lift {A} (f : world -> A * world) : M A :=
  fun w => let (a, w') := f w in (inl a, w').

(** A call of a caller-supplied function outside any [try]: its exception
    leaves the loop. *)
Definition call (ev : pyval -> event) (f : pyval -> result) (x : pyval) : M pyval :=
  say (ev x) ;;
  match f x with
  | Ok v => ret v
  | Exc e => exit (Uncaught e)
  end.

(** The same call inside [try: ... except Exception as exc:]: the handler
    sees the exceptions that are instances of [Exception]. *)
Definition try_call (ev : pyval -> event) (f : pyval -> result) (x : pyval)
  : M (pyval + exc) :=
  say (ev x) ;;
  match f x with
  | Ok v => ret (inl v)
  | Exc e => if is_Exception e then ret (inr e) else exit (Uncaught e)
  end.

(** ** The arguments of [_generic_input] *)

Record args := mkArgs {
  prompt : pyval;
  default_value : pyval;
  timeout : pyval;
  limit : pyval;
  apply_func : pyarg;
  validation_func : pyarg;
  post_validate_apply_func : pyarg;
  password_mask : pyval
}.

(** The arguments once "Validate the parameters" has let them through. *)
Record config := mkConfig {
  c_prompt : string;
  c_default : pyval;
  c_timeout : option float;
  c_limit : option Z;
  c_apply : option (pyval -> result);
  c_validate : pyval -> result;
  c_post : option (pyval -> result);
  c_mask : option string
}.

Definition optional_callable (a : pyarg) : option (option (pyval -> result)) :=
  match a with
  | Callable f => Some (Some f)
  | Data VNone => Some None
  | Data _ => None
  end.

(** [core.py] lines 87-107, in the order of the source. *)
Definition validate_parameters (a : args) : string + config :=
  match prompt a with
  | VStr p =>
    if negb (isinstance_num_or_None (timeout a))
    then inl "timeout argument must be an int or float"
    else if negb (isinstance_int_or_None (limit a))
    then inl "limit argument must be an int"
    else
      match validation_func a with
      | Data _ => inl "validationFunc argument must be a function"
      | Callable vf =>
        match optional_callable (apply_func a) with
        | None => inl "applyFunc argument must be a function or None"
        | Some af =>
          match optional_callable (post_validate_apply_func a) with
          | None => inl "postValidateApplyFunc argument must be a function or None"
          | Some pf =>
            let accept (m : option string) :=
              inr (mkConfig p (default_value a) (timeout_of (timeout a))
                     (limit_of (limit a)) af vf pf m) in
            match password_mask a with
            | VNone => accept None
            | VStr m =>
              if (1 <? length m)%nat
              then inl "passwordMask argument must be None or a single-character string."
              else accept (Some m)
            | _ => inl "passwordMask argument must be None or a single-character string."
            end
          end
        end
      end
  | _ => inl "prompt argument must be a str"
  end.

(** ** The loop, [core.py] lines 109-168 *)

(** [timeout is not None and start_time + timeout < time.time()] *)
Definition timeout_elapsed (c : config) (start_time : float) : M bool :=
  match c_timeout c with
  | Some t => t_now <- now ;; ret (flt (fadd start_time t) t_now)
  | None => ret false
  end.

(** The body of [while True] from line 121 on, for the line just read and
    the value of [tries] after its increment.  [ret tt] is [continue]. *)
Definition attempt (c : config) (start_time : float) (tries : Z) (line : string)
  : M unit :=
  user_input <-
    match c_apply c with
    | Some f => call EvApply f (VStr line)
    | None => ret (VStr line)
    end ;;
  validated <- try_call EvValidate (c_validate c) user_input ;;
  match validated with
  | inr exc =>
      limit_or_timeout_error <-
        lift (_check_limit_and_timeout start_time (c_timeout c) tries (c_limit c)) ;;
      say (EvPrintExc exc) ;;
      say (EvLog exc) ;;
      match limit_or_timeout_error with
      | Some le =>
          if negb (is_None (c_default c))
          then exit (ReturnDefault (c_default c))
          else exit (RaiseLimitOrTimeout le)
      | None => ret tt
      end
  | inl possible_new_user_input =>
      let user_input :=
        if negb (is_None possible_new_user_input)
        then possible_new_user_input else user_input in
      elapsed <- timeout_elapsed c start_time ;;
      if elapsed
      then
        if negb (is_None (c_default c))
        then exit (ReturnDefault (c_default c))
        else exit RaiseTimeout
      else
        match c_post c with
        | Some f =>
            r <- call EvPostValidate f user_input ;;
            exit (ReturnValue r)
        | None => exit (ReturnValue user_input)
        end
  end.

(** Lines 114-119: the prompt and the read, by the strategy the mask
    selects. *)
Definition read_event (c : config) (line : string) : event :=
  match c_mask c with
  | None => EvInput line
  | Some m => EvPwinput m line
  end.

(** [while True], by recursion on the lines the console still holds. *)
Fixpoint loop (c : config) (start_time : float) (tries : Z)
    (stdin : list string) (w : world) : outcome * world :=
  let w := emit (EvPrint (c_prompt c)) w in
  match stdin with
  | [] => (Uncaught (mkExc EOFError "EOF when reading a line"), w)
  | line :: rest =>
      let w := emit (read_event c line) w in
      let tries := tries + 1 in
      match attempt c start_time tries line w with
      | (inl tt, w') => loop c start_time tries rest w'
      | (inr o, w') => (o, w')
      end
  end.

Definition _generic_input (a : args) (stdin : list string) (w : world)
  : outcome * world :=
  match validate_parameters a with
  | inl msg => (RaiseConfig msg, w)
  | inr c =>
      let (start_time, w) := time_time w in
      loop c start_time 0 stdin w
  end.

(** ** Calling [_generic_input] by keyword

    Every call site in [inputs.py] passes keywords only.  A keyword that
    names no parameter of the callee makes the call raise [TypeError]
    before the body runs; a parameter left out takes its default. *)

Definition kwargs := list (string * pyarg).

(** [core.py] lines 54-63. *)
Definition _generic_input_parameters : list string :=
  ["prompt"; "default_value"; "timeout"; "limit"; "apply_func";
   "validation_func"; "post_validate_apply_func"; "password_mask"].

Definition is_parameter (k : string) : bool :=
  existsb (String.eqb k) _generic_input_parameters.

Fixpoint unexpected_keyword (kw : kwargs) : option string :=
  match kw with
  | [] => None
  | (k, _) :: rest => if is_parameter k then unexpected_keyword rest else Some k
  end.

Fixpoint keyword (k : string) (kw : kwargs) : option pyarg :=
  match kw with
  | [] => None
  | (k', a) :: rest => if String.eqb k k' then Some a else keyword k rest
  end.

(** A function object in a position where the loop only inspects or
    returns the object. *)
Definition data_keyword (k : string) (dflt : pyval) (kw : kwargs) : pyval :=
  match keyword k kw with
  | Some (Data v) => v
  | Some (Callable _) => VObj "<function>"
  | None => dflt
  end.

Definition func_keyword (k : string) (kw : kwargs) : pyarg :=
  match keyword k kw with
  | Some a => a
  | None => Data VNone
  end.

Definition bind_keywords (kw : kwargs) : args :=
  mkArgs (data_keyword "prompt" (VStr EmptyString) kw)
         (data_keyword "default_value" VNone kw)
         (data_keyword "timeout" VNone kw)
         (data_keyword "limit" VNone kw)
         (func_keyword "apply_func" kw)
         (func_keyword "validation_func" kw)
         (func_keyword "post_validate_apply_func" kw)
         (data_keyword "password_mask" VNone kw).

Definition call_generic_input (kw : kwargs) (stdin : list string) (w : world)
  : result * world :=
  match unexpected_keyword kw with
  | Some k =>
      (Exc (mkExc TypeError
              ("_generic_input() got an unexpected keyword argument '" ++ k ++ "'")),
       w)
  | None =>
      let (o, w') := _generic_input (bind_keywords kw) stdin w in
      (observe o, w')
  end.

End Core.

(** ** The numeric wrappers, [inputs.py] lines 217-396

    PySimpleValidate and the builtins [float] and [int] are not part of
    the repository; the wrappers are parametric in them. *)

Class Externals {F : FloatOps} := {
  (* pysv._validateParamsFor_validateNum(min, max, lessThan, greaterThan) *)
  pysv_validateParamsFor_validateNum : pyval -> pyval -> pyval -> pyval -> result;
  (* pysv.validateNum(value, blank, strip, allowRegexes, blockRegexes,
                      min, max, lessThan, greaterThan, _numType) *)
  pysv_validateNum :
    pyval -> pyval -> pyval -> pyval -> pyval ->
    pyval -> pyval -> pyval -> pyval -> string -> result;
  py_float : pyval -> result;     (* float(x) *)
  py_int : pyval -> result        (* int(x) *)
}.

Section Wrappers.

Context {F : FloatOps} {X : Externals}.

Definition is_ValueError (e : exc) : bool :=
  match exc_cls e with ValueError => true | _ => false end.

(** [try: result = conv(result)  except ValueError: pass] *)
Definition convert_or_keep (conv : pyval -> result) (r : pyval) : result :=
  match conv r with
  | Ok r' => Ok r'
  | Exc e => if is_ValueError e then Ok r else Exc e
  end.

(** [int(float(result))] *)
Definition int_of_float (r : pyval) : result :=
  match py_float r with
  | Ok x => py_int x
  | Exc e => Exc e
  end.

(** Lines 318-320 and 394-396:
    [if postValidateApplyFunc is None: return result]
    [return postValidateApplyFunc(result)] *)
Definition post_validate (postValidateApplyFunc : pyarg) (r : pyval) (w : world)
  : result * world :=
  match postValidateApplyFunc with
  | Data VNone => (Ok r, w)
  | Callable f => (f r, emit (EvPostValidate r) w)
  | Data _ => (Exc (mkExc TypeError "object is not callable"), w)
  end.

(** [inputs.py] lines 217-320. *)
Definition inputInt
    (prompt default blank timeout limit strip allowRegexes blockRegexes : pyval)
    (applyFunc postValidateApplyFunc : pyarg)
    (min max lessThan greaterThan : pyval)
    (stdin : list string) (w : world) : result * world :=
  match pysv_validateParamsFor_validateNum min max lessThan greaterThan with
  | Exc e => (Exc e, w)
  | Ok _ =>
      let validationFunc := fun value =>
        pysv_validateNum value blank strip allowRegexes blockRegexes
                         min max lessThan greaterThan "int" in
      match call_generic_input
              [("prompt", Data prompt); ("default", Data default);
               ("timeout", Data timeout); ("limit", Data limit);
               ("applyFunc", applyFunc);
               ("validationFunc", Callable validationFunc)] stdin w with
      | (Exc e, w') => (Exc e, w')
      | (Ok result, w') =>
          match convert_or_keep int_of_float result with
          | Exc e => (Exc e, w')
          | Ok result => post_validate postValidateApplyFunc result w'
          end
      end
  end.

(** [inputs.py] lines 323-396. *)
Definition inputFloat
    (prompt default blank timeout limit strip allowRegexes blockRegexes : pyval)
    (applyFunc postValidateApplyFunc : pyarg)
    (min max lessThan greaterThan : pyval)
    (stdin : list string) (w : world) : result * world :=
  match pysv_validateParamsFor_validateNum min max lessThan greaterThan with
  | Exc e => (Exc e, w)
  | Ok _ =>
      let validationFunc := fun value =>
        pysv_validateNum value blank strip allowRegexes blockRegexes
                         min max lessThan greaterThan "float" in
      match call_generic_input
              [("prompt", Data prompt); ("default", Data default);
               ("timeout", Data timeout); ("limit", Data limit);
               ("applyFunc", applyFunc);
               ("validationFunc", Callable validationFunc)] stdin w with
      | (Exc e, w') => (Exc e, w')
      | (Ok result, w') =>
          match convert_or_keep py_float result with
          | Exc e => (Exc e, w')
          | Ok result => post_validate postValidateApplyFunc result w'
          end
      end
  end.

End Wrappers.

(** ** Vocabulary of the specification *)

Section Vocabulary.

Context {F : FloatOps}.

(** "timeout is set and the current time strictly exceeds
    start_time + timeout" *)
Definition timeout_exceeded (current_time start_time : float)
    (timeout : option float) : bool :=
  match timeout with
  | Some t => flt (fadd start_time t) current_time
  | None => false
  end.

(** "limit is set and tries >= limit" *)
Definition limit_reached (tries : Z) (limit : option Z) : bool :=
  match limit with
  | Some l => (l <=? tries)%Z
  | None => false
  end.

(** The evaluator as the specification words it, with the current time as
    an explicit input. *)
Definition evaluate (current_time start_time : float) (timeout : option float)
    (tries : Z) (limit : option Z) : option limit_error :=
  if timeout_exceeded current_time start_time timeout then Some TimeoutExceeded
  else if limit_reached tries limit then Some RetryLimitExceeded
  else None.

(** The time a reading of the clock would give in world [w]. *)
Definition current_time (w : world) : float := clock w (ticks w).

(** The world after [evs] have happened. *)
Definition emits (evs : list event) (w : world) : world :=
  mkWorld (clock w) (ticks w) (trace w ++ evs).

(** The world after one more reading of the clock. *)
Definition tick (w : world) : world := snd (time_time w).

(** The world after the evaluator, or the re-check of line 158, has run:
    the clock is read when a timeout is set. *)
Definition after_clock (c : config) (w : world) : world :=
  match c_timeout c with Some _ => tick w | None => w end.

(** Step 3 of the loop: the working value the validator is given. *)
Definition pre_transform (c : config) (line : string) : result :=
  match c_apply c with
  | Some f => f (VStr line)
  | None => Ok (VStr line)
  end.

Definition pre_events (c : config) (line : string) : list event :=
  match c_apply c with
  | Some _ => [EvApply (VStr line)]
  | None => []
  end.

(** Step 4, on success: a non-null replacement becomes the working value. *)
Definition working_value (given replacement : pyval) : pyval :=
  if is_None replacement then given else replacement.

(** The world in which an iteration runs its body: the prompt has been
    shown and [line] has been read. *)
Definition prompted (c : config) (line : string) (w : world) : world :=
  emit (read_event c line) (emit (EvPrint (c_prompt c)) w).

(** [iteration c start k tries stdin w]: the state of the loop in its
    [k]-th iteration (from 0) just after the read and [tries += 1], when
    the loop gets that far: the value of [tries], the line read, the lines
    left, and the world. *)
Fixpoint iteration (c : config) (start_time : float) (k : nat) (tries : Z)
    (stdin : list string) (w : world)
  : option (Z * string * list string * world) :=
  match stdin with
  | [] => None
  | line :: rest =>
      let w1 := prompted c line w in
      match k with
      | O => Some (tries + 1, line, rest, w1)
      | S k' =>
          match attempt c start_time (tries + 1) line w1 with
          | (inl tt, w') => iteration c start_time k' (tries + 1) rest w'
          | (inr _, _) => None
          end
      end
  end.

(** The same for a call of [_generic_input]: the configuration and the
    start time it runs with, and the state of its [k]-th iteration. *)
Definition run_iteration (a : args) (stdin : list string) (w : world) (k : nat)
  : option (config * float * (Z * string * list string * world)) :=
  match validate_parameters a with
  | inl _ => None
  | inr c =>
      let (start_time, w0) := time_time w in
      match iteration c start_time k 0 stdin w0 with
      | Some s => Some (c, start_time, s)
      | None => None
      end
  end.

Definition is_post_validate (e : event) : bool :=
  match e with EvPostValidate _ => true | _ => false end.

(** The error of a call that passes the keyword [default]. *)
Definition unexpected_default : exc :=
  mkExc TypeError "_generic_input() got an unexpected keyword argument 'default'".

(** No call of the post-validation transform among [evs]. *)
Definition no_post_validate (evs : list event) : bool :=
  forallb (fun e => negb (is_post_validate e)) evs.

End Vocabulary.

(** ** A concrete setting for examples

    Floats that hold whole seconds: on them [+], [<] and [<=] are those of
    the integers. *)

Definition ZFloat : FloatOps :=
  {| float := Z; fadd := Z.add; flt := Z.ltb; fle := Z.leb; float_of_int := fun z => z |}.

Module Examples.

#[local] Existing Instance ZFloat.

(** A clock that advances two seconds between consecutive readings. *)
Definition world0 : world := mkWorld (fun n => 2 * Z.of_nat n) 0 [].

(** A clock that stands still. *)
Definition frozen : world := mkWorld (fun _ => 0) 0 [].

Definition invalid : exc := mkExc ValidationError "This response is invalid.".

Definition rejects_all : pyval -> result := fun _ => Exc invalid.

Definition accepts_all : pyval -> result := fun _ => Ok VNone.

(** Rejects the line ["bad"] and accepts every other value unchanged. *)
Definition rejects_bad : pyval -> result := fun v =>
  match v with
  | VStr s => if String.eqb s "bad" then Exc invalid else Ok VNone
  | _ => Ok VNone
  end.

(** Accepts a string and returns it in capitals when it is ["yes"]. *)
Definition normalizes : pyval -> result := fun v =>
  match v with
  | VStr s => if String.eqb s "yes" then Ok (VStr "YES") else Ok VNone
  | _ => Ok VNone
  end.

Definition boom : exc := mkExc (OtherException "ZeroDivisionError") "division by zero".

Definition raises_boom : pyval -> result := fun _ => Exc boom.

Definition shout : pyval -> result := fun v =>
  match v with
  | VStr s => Ok (VStr (s ++ "!"))
  | _ => Ok v
  end.

(** [_generic_input(validation_func=vf, ...)] with the other arguments at
    their defaults unless given. *)
Definition with_validator (vf : pyval -> result) (default timeout limit : pyval)
    (post : pyarg) (mask : pyval) : args :=
  mkArgs (VStr "> ") default timeout limit (Data VNone) (Callable vf) post mask.

(** [_generic_input(apply_func=af, validation_func=vf, default_value=default)] *)
Definition with_transform (af vf : pyval -> result) (default : pyval) : args :=
  mkArgs (VStr "> ") default VNone VNone (Callable af) (Callable vf)
         (Data VNone) VNone.

(** Stand-ins for PySimpleValidate and the builtins: the bounds are
    accepted, no input is a number, and only numbers convert. *)
Definition stubs : Externals :=
  {| pysv_validateParamsFor_validateNum := fun _ _ _ _ => Ok VNone;
     pysv_validateNum := fun _ _ _ _ _ _ _ _ _ _ => Exc invalid;
     py_float := fun v =>
       match v with
       | VInt z => Ok (VFloat z)
       | VFloat x => Ok (VFloat x)
       | _ => Exc (mkExc ValueError "could not convert string to float")
       end;
     py_int := fun v =>
       match v with
       | VInt z => Ok (VInt z)
       | VFloat x => Ok (VInt x)
       | _ => Exc (mkExc ValueError "invalid literal for int()")
       end |}.

End Examples.

(** ** Reading a trace *)

Section Traces.

Context {F : FloatOps}.

(** The line a read event delivered. *)
Definition line_of (e : event) : option string :=
  match e with
  | EvInput line | EvPwinput _ line => Some line
  | _ => None
  end.

(** The lines read, oldest first. *)
Fixpoint lines_read (evs : list event) : list string :=
  match evs with
  | [] => []
  | e :: rest =>
      match line_of e with
      | Some line => line :: lines_read rest
      | None => lines_read rest
      end
  end.

(** The prompts shown, oldest first. *)
Fixpoint prompts_shown (evs : list event) : list string :=
  match evs with
  | [] => []
  | EvPrint s :: rest => s :: prompts_shown rest
  | _ :: rest => prompts_shown rest
  end.

(** The events of the console: a prompt or a read. *)
Definition is_console (e : event) : bool :=
  match e with
  | EvPrint _ | EvInput _ | EvPwinput _ _ => true
  | _ => false
  end.

(** A read agrees with the mask argument: [input()] when it is [None], the
    masked read with that mask when it is a string. *)
Definition read_matches (mask : pyval) (e : event) : bool :=
  match e, mask with
  | EvInput _, VNone => true
  | EvInput _, _ => false
  | EvPwinput m _, VStr m' => String.eqb m m'
  | EvPwinput _ _, _ => false
  | _, _ => true
  end.

(** What a failed attempt on [line] adds to the trace when no
    pre-validation transform is configured and [e] is the failure. *)
Definition rejection (c : config) (line : string) (e : exc) : list event :=
  [EvPrint (c_prompt c); read_event c line; EvValidate (VStr line);
   EvPrintExc e; EvLog e].

(** A session in which every line is rejected, [fail line] being the
    failure on [line]. *)
Definition rejections (c : config) (fail : string -> exc) (lines : list string)
  : list event :=
  flat_map (fun line => rejection c line (fail line)) lines.

(** The exception at the end of input. *)
Definition end_of_input : exc := mkExc EOFError "EOF when reading a line".

End Traces.

(** ** The exception classes of [exceptions.py] *)

(** The class a class derives from; [None] past [Exception] and
    [BaseException], which the hierarchy below does not follow further. *)
Definition base_class (k : exc_class) : option exc_class :=
  match k with
  | PyInputPlusError => None            (* class PyInputPlusError(Exception) *)
  | ValidationError => Some PyInputPlusError
  | PyIPTimeoutError => Some PyInputPlusError
  | RetryLimitError => Some PyInputPlusError
  | _ => None
  end.

Definition same_class (k k' : exc_class) : bool :=
  match k, k' with
  | PyInputPlusError, PyInputPlusError
  | ValidationError, ValidationError
  | PyIPTimeoutError, PyIPTimeoutError
  | RetryLimitError, RetryLimitError
  | EOFError, EOFError
  | TypeError, TypeError
  | ValueError, ValueError
  | KeyboardInterrupt, KeyboardInterrupt => true
  | OtherException n, OtherException n' => String.eqb n n'
  | _, _ => false
  end.

(** [isinstance(e, k)] for the classes of the package: the class of [e] is
    [k] or derives from it in one step (the hierarchy is one level deep). *)
Definition isinstance (e : exc) (k : exc_class) : bool :=
  same_class (exc_cls e) k
  || match base_class (exc_cls e) with
     | Some b => same_class b k
     | None => false
     end.

(** ** More wrappers of [inputs.py]

    [inputStr], [inputCustom], [inputNum] and [inputPassword].  The
    functions of PySimpleValidate they call, and [len] on an object the
    model keeps opaque, are parameters. *)

Class PreValidation {F : FloatOps} := {
  (* pysv._validateGenericParameters(blank, strip, allowRegexes, blockRegexes) *)
  pysv_validateGenericParameters : pyval -> pyval -> pyval -> pyval -> result;
  (* pysv._prevalidationCheck(value, blank, strip, allowRegexes, blockRegexes,
                              excMsg): a pair, or an exception *)
  pysv_prevalidationCheck :
    pyval -> pyval -> pyval -> pyval -> pyval -> pyval -> (pyval * pyval) + exc;
  (* len(x) for an opaque object x *)
  len_of_object : string -> Z + exc
}.

Section MoreWrappers.

Context {F : FloatOps} {X : Externals} {P : PreValidation}.

(** [len(x)] *)
Definition py_len (v : pyval) : Z + exc :=
  match v with
  | VStr s => inl (Z.of_nat (length s))
  | VObj repr => len_of_object repr
  | _ => inr (mkExc TypeError "object has no len()")
  end.

(** [lambda value: pysv._prevalidationCheck(value, ..., excMsg=None)[1]] *)
Definition prevalidated (blank strip allowRegexes blockRegexes : pyval)
  : pyval -> result :=
  fun value =>
    match pysv_prevalidationCheck value blank strip allowRegexes blockRegexes
            VNone with
    | inl (_, v) => Ok v
    | inr e => Exc e
    end.

(** [inputs.py] lines 12-60. *)
Definition inputStr
    (prompt default blank timeout limit strip allowRegexes blockRegexes : pyval)
    (applyFunc postValidateApplyFunc : pyarg)
    (stdin : list string) (w : world) : result * world :=
  match pysv_validateGenericParameters blank strip allowRegexes blockRegexes with
  | Exc e => (Exc e, w)
  | Ok _ =>
      let validationFunc := prevalidated blank strip allowRegexes blockRegexes in
      call_generic_input
        [("prompt", Data prompt); ("default", Data default);
         ("timeout", Data timeout); ("limit", Data limit);
         ("applyFunc", applyFunc);
         ("postValidateApplyFunc", postValidateApplyFunc);
         ("validationFunc", Callable validationFunc)] stdin w
  end.

(** [inputs.py] lines 63-122.  [customValidationFunc] is called on the
    value the pre-validation hands back. *)
Definition inputCustom (customValidationFunc : pyval -> result)
    (prompt default blank timeout limit strip allowRegexes blockRegexes : pyval)
    (applyFunc postValidateApplyFunc : pyarg)
    (stdin : list string) (w : world) : result * world :=
  match pysv_validateGenericParameters blank strip allowRegexes blockRegexes with
  | Exc e => (Exc e, w)
  | Ok _ =>
      let validationFunc := fun value =>
        match prevalidated blank strip allowRegexes blockRegexes value with
        | Ok value => customValidationFunc value
        | Exc e => Exc e
        end in
      call_generic_input
        [("prompt", Data prompt); ("default", Data default);
         ("timeout", Data timeout); ("limit", Data limit);
         ("applyFunc", applyFunc);
         ("postValidateApplyFunc", postValidateApplyFunc);
         ("validationFunc", Callable validationFunc)] stdin w
  end.

(** [inputs.py] lines 125-218. *)
Definition inputNum
    (prompt default blank timeout limit strip allowRegexes blockRegexes : pyval)
    (applyFunc postValidateApplyFunc : pyarg)
    (min max greaterThan lessThan : pyval)
    (stdin : list string) (w : world) : result * world :=
  match pysv_validateParamsFor_validateNum min max lessThan greaterThan with
  | Exc e => (Exc e, w)
  | Ok _ =>
      let validationFunc := fun value =>
        pysv_validateNum value blank strip allowRegexes blockRegexes
                         min max lessThan greaterThan "num" in
      call_generic_input
        [("prompt", Data prompt); ("default", Data default);
         ("timeout", Data timeout); ("limit", Data limit);
         ("applyFunc", applyFunc);
         ("postValidateApplyFunc", postValidateApplyFunc);
         ("validationFunc", Callable validationFunc)] stdin w
  end.

Definition bad_mask : exc :=
  mkExc PyInputPlusError
        "mask argument must be None, '', or a single-character string.".

(** [inputs.py] lines 1545-1604. *)
Definition inputPassword
    (prompt mask default blank timeout limit strip allowRegexes blockRegexes
       : pyval)
    (applyFunc postValidateApplyFunc : pyarg)
    (stdin : list string) (w : world) : result * world :=
  let checked_mask :=
    if is_None mask then inl false
    else match py_len mask with
         | inl n => inl (n >? 1)
         | inr e => inr e
         end in
  match checked_mask with
  | inr e => (Exc e, w)
  | inl true => (Exc bad_mask, w)
  | inl false =>
      match pysv_validateGenericParameters blank strip allowRegexes blockRegexes
      with
      | Exc e => (Exc e, w)
      | Ok _ =>
          let validationFunc :=
            prevalidated blank strip allowRegexes blockRegexes in
          call_generic_input
            [("prompt", Data prompt); ("default", Data default);
             ("timeout", Data timeout); ("limit", Data limit);
             ("applyFunc", applyFunc);
             ("postValidateApplyFunc", postValidateApplyFunc);
             ("validationFunc", Callable validationFunc);
             ("passwordMask", Data mask)] stdin w
      end
  end.

End MoreWrappers.

Module MoreExamples.

#[local] Existing Instance ZFloat.

(** Stand-ins for the pre-validation of PySimpleValidate: the arguments
    are accepted and a value passes unchanged. *)
Definition passes : PreValidation :=
  {| pysv_validateGenericParameters := fun _ _ _ _ => Ok VNone;
     pysv_prevalidationCheck := fun v _ _ _ _ _ => inl (VBool false, v);
     len_of_object := fun _ => inl 0 |}.

(** [_generic_input(prompt="> ", validation_func=rejects_all, limit=2)] *)
Definition two_tries : args :=
  Examples.with_validator Examples.rejects_all VNone VNone (VInt 2)
    (Data VNone) VNone.

(** [_generic_input(prompt="> ", validation_func=rejects_all,
                    default_value="N/A")] *)
Definition no_budget : args :=
  Examples.with_validator Examples.rejects_all (VStr "N/A") VNone VNone
    (Data VNone) VNone.

(** [_generic_input(prompt="> ", validation_func=rejects_bad, limit=3)] *)
Definition three_tries : args :=
  Examples.with_validator Examples.rejects_bad VNone VNone (VInt 3)
    (Data VNone) VNone.

(** [_generic_input(prompt="> ", validation_func=rejects_all,
                    default_value="N/A", timeout=1)] *)
Definition one_second : args :=
  Examples.with_validator Examples.rejects_all (VStr "N/A") (VInt 1) VNone
    (Data VNone) VNone.

(** The configurations the first three validate to. *)
Definition two_tries_config : config :=
  mkConfig "> " VNone None (Some 2) None Examples.rejects_all None None.

Definition no_budget_config : config :=
  mkConfig "> " (VStr "N/A") None None None Examples.rejects_all None None.

Definition three_tries_config : config :=
  mkConfig "> " VNone None (Some 3) None Examples.rejects_bad None None.

End MoreExamples.

(** * Properties *)

Local Open Scope list_scope.

Section Evaluator.

Context {F : FloatOps}.

Lemma check_result start_time timeout tries limit w :
  fst (_check_limit_and_timeout start_time timeout tries limit w)
  = evaluate (current_time w) start_time timeout tries limit.
Proof.
  unfold _check_limit_and_timeout, evaluate, timeout_exceeded, limit_reached,
    current_time.
  destruct timeout as [t|]; cbn.
  - destruct (flt (fadd start_time t) (clock w (ticks w))); [reflexivity|].
    destruct limit as [l|]; [|reflexivity].
    rewrite Z.geb_leb. now destruct (l <=? tries)%Z.
  - destruct limit as [l|]; [|reflexivity].
    rewrite Z.geb_leb. now destruct (l <=? tries)%Z.
Qed.

(** The evaluator reads the clock when a timeout is set, and does nothing
    else to the world. *)
Lemma check_world start_time timeout tries limit w :
  snd (_check_limit_and_timeout start_time timeout tries limit w)
  = match timeout with Some _ => tick w | None => w end.
Proof.
  unfold _check_limit_and_timeout, tick.
  destruct timeout as [t|]; cbn.
  - destruct (flt _ _); [reflexivity|].
    destruct limit as [l|]; [|reflexivity]. now destruct (tries >=? l).
  - destruct limit as [l|]; [|reflexivity]. now destruct (tries >=? l).
Qed.

(** C1. The evaluator yields the timeout outcome when a timeout is set and
    the time it reads strictly exceeds [start_time + timeout]; otherwise the
    retry-limit outcome when a limit is set and [tries >= limit]; otherwise
    nothing.  When both budgets are exceeded it yields the timeout
    outcome. *)
Theorem check_limit_and_timeout_decides start_time timeout tries limit w :
  let answer := fst (_check_limit_and_timeout start_time timeout tries limit w) in
  answer = evaluate (current_time w) start_time timeout tries limit
  /\ (timeout_exceeded (current_time w) start_time timeout = true ->
      answer = Some TimeoutExceeded)
  /\ (timeout_exceeded (current_time w) start_time timeout = false ->
      limit_reached tries limit = true ->
      answer = Some RetryLimitExceeded)
  /\ (timeout_exceeded (current_time w) start_time timeout = false ->
      limit_reached tries limit = false ->
      answer = None)
  /\ (timeout_exceeded (current_time w) start_time timeout = true ->
      limit_reached tries limit = true ->
      answer = Some TimeoutExceeded).
Proof.
  cbv zeta. rewrite check_result. unfold evaluate.
  repeat split; intros; repeat match goal with H : _ = _ |- _ => rewrite H end;
    reflexivity.
Qed.

Lemma timeout_exceeded_later
    (flt_fle_trans : forall x y z, flt x y = true -> fle y z = true -> flt x z = true)
    t t' start_time timeout :
  fle t t' = true ->
  timeout_exceeded t start_time timeout = true ->
  timeout_exceeded t' start_time timeout = true.
Proof.
  unfold timeout_exceeded. destruct timeout as [d|]; [|discriminate].
  intros Hle Hlt. exact (flt_fle_trans _ _ _ Hlt Hle).
Qed.

Lemma limit_reached_later tries tries' limit :
  tries <= tries' ->
  limit_reached tries limit = true -> limit_reached tries' limit = true.
Proof.
  unfold limit_reached. destruct limit as [l|]; [|discriminate].
  rewrite !Z.leb_le. lia.
Qed.

(** C9.  The evaluator changes nothing but the count of clock readings, and
    its answer is a function of its arguments and of the time it reads: two
    calls with the same arguments that read the same time agree.  Along
    non-decreasing [tries] and clock readings an answer once given is not
    taken back: a timeout stays a timeout, and an outcome stays an
    outcome. *)
Theorem check_limit_and_timeout_stable start_time timeout limit :
  (forall tries w,
      let after := snd (_check_limit_and_timeout start_time timeout tries limit w) in
      trace after = trace w /\ clock after = clock w)
  /\ (forall tries w w',
      current_time w = current_time w' ->
      fst (_check_limit_and_timeout start_time timeout tries limit w)
      = fst (_check_limit_and_timeout start_time timeout tries limit w'))
  /\ ((forall x y z, flt x y = true -> fle y z = true -> flt x z = true) ->
      forall tries tries' w w',
      tries <= tries' ->
      fle (current_time w) (current_time w') = true ->
      let first := fst (_check_limit_and_timeout start_time timeout tries limit w) in
      let later := fst (_check_limit_and_timeout start_time timeout tries' limit w') in
      (first = Some TimeoutExceeded -> later = Some TimeoutExceeded)
      /\ (first <> None -> later <> None)).
Proof.
  split; [|split].
  - intros tries w. cbv zeta. rewrite check_world.
    destruct timeout; split; reflexivity.
  - intros tries w w' E. now rewrite !check_result, E.
  - intros flt_fle_trans tries tries' w w' Htries Hclock. cbv zeta.
    rewrite !check_result.
    pose proof (timeout_exceeded_later flt_fle_trans _ _ start_time timeout Hclock)
      as Hto.
    pose proof (limit_reached_later _ _ limit Htries) as Hlim.
    unfold evaluate. split.
    + destruct (timeout_exceeded (current_time w) start_time timeout).
      * now rewrite Hto.
      * destruct (limit_reached tries limit); discriminate.
    + destruct (timeout_exceeded (current_time w) start_time timeout).
      * rewrite Hto by reflexivity. discriminate.
      * destruct (limit_reached tries limit); [|congruence].
        rewrite Hlim by reflexivity.
        destruct (timeout_exceeded (current_time w') start_time timeout);
          discriminate.
Qed.

End Evaluator.

Section Loop.

Context {F : FloatOps}.

(** *** Worlds *)

Lemma world_eq w w' :
  clock w = clock w' -> ticks w = ticks w' -> trace w = trace w' -> w = w'.
Proof. destruct w, w'; cbn; intros; subst; reflexivity. Qed.

Ltac world :=
  unfold after_clock;
  repeat match goal with
         | |- context [match ?t with Some _ => _ | None => _ end] => destruct t
         end;
  apply world_eq; cbn;
  rewrite <- ?app_assoc, ?app_nil_r; cbn; reflexivity.

(** *** One iteration, case by case *)

Lemma lift_check start_time timeout tries limit w :
  lift (_check_limit_and_timeout start_time timeout tries limit) w
  = (inl (evaluate (current_time w) start_time timeout tries limit),
     match timeout with Some _ => tick w | None => w end).
Proof.
  unfold lift.
  pose proof (check_result start_time timeout tries limit w) as Hr.
  pose proof (check_world start_time timeout tries limit w) as Hw.
  destruct (_check_limit_and_timeout start_time timeout tries limit w).
  cbn in Hr, Hw. now subst.
Qed.

Lemma timeout_elapsed_run c start_time w :
  timeout_elapsed c start_time w
  = (inl (timeout_exceeded (current_time w) start_time (c_timeout c)),
     after_clock c w).
Proof.
  unfold timeout_elapsed, timeout_exceeded, after_clock.
  destruct (c_timeout c); reflexivity.
Qed.

(** The part of an iteration that follows the pre-transform. *)
Ltac validation_cases c x :=
  destruct (c_validate c x) as [r|e]; cbn;
  [ rewrite timeout_elapsed_run; cbn;
    destruct (timeout_exceeded _ _ _); cbn;
    [ destruct (c_default c); cbn; f_equal; world
    | destruct (is_None r); cbn;
      (destruct (c_post c) as [g|]; cbn; [destruct (g _)|]; cbn; f_equal; world) ]
  | destruct (is_Exception e); cbn; [|f_equal; world];
    rewrite lift_check; cbn;
    destruct (evaluate _ _ _ _ _); cbn; [destruct (c_default c)|]; cbn;
    f_equal; world ].

Lemma attempt_cases c start_time tries line w :
  attempt c start_time tries line w =
  match pre_transform c line with
  | Exc e => (inr (Uncaught e), emits (pre_events c line) w)
  | Ok x =>
      let w1 := emits (pre_events c line ++ [EvValidate x]) w in
      match c_validate c x with
      | Exc e =>
          if is_Exception e then
            (match evaluate (current_time w) start_time (c_timeout c) tries (c_limit c) with
             | Some le =>
                 if is_None (c_default c)
                 then inr (RaiseLimitOrTimeout le)
                 else inr (ReturnDefault (c_default c))
             | None => inl tt
             end,
             emits [EvPrintExc e; EvLog e] (after_clock c w1))
          else (inr (Uncaught e), w1)
      | Ok r =>
          let u := working_value x r in
          if timeout_exceeded (current_time w) start_time (c_timeout c) then
            (inr (if is_None (c_default c)
                  then RaiseTimeout else ReturnDefault (c_default c)),
             after_clock c w1)
          else
            match c_post c with
            | Some f =>
                (match f u with
                 | Ok v => inr (ReturnValue v)
                 | Exc e => inr (Uncaught e)
                 end,
                 emits [EvPostValidate u] (after_clock c w1))
            | None => (inr (ReturnValue u), after_clock c w1)
            end
      end
  end.
Proof.
  unfold attempt, pre_transform, pre_events, working_value,
    call, try_call, bind, say, ret, exit.
  destruct (c_apply c) as [f|]; cbn.
  - destruct (f (VStr line)) as [x|e]; cbn; [|reflexivity].
    validation_cases c x.
  - validation_cases c (VStr line).
Qed.

(** *** The loop as a sequence of iterations *)

Lemma loop_at_iteration c start_time k :
  forall tries stdin w tries' line rest w1,
  iteration c start_time k tries stdin w = Some (tries', line, rest, w1) ->
  loop c start_time tries stdin w =
  match attempt c start_time tries' line w1 with
  | (inl tt, w') => loop c start_time tries' rest w'
  | (inr o, w') => (o, w')
  end.
Proof.
  induction k as [|k IH]; intros tries stdin w tries' line rest w1;
    destruct stdin as [|l ls]; cbn; try discriminate.
  - intros [= <- <- <- <-]. reflexivity.
  - fold (prompted c l w).
    destruct (attempt c start_time (tries + 1) l (prompted c l w)) as [[[]|o] w'];
      [|discriminate].
    apply IH.
Qed.

(** Every way out of the loop is the end of input or the exit of one of
    its iterations. *)
Lemma loop_ends c start_time stdin :
  forall tries w o wf,
  loop c start_time tries stdin w = (o, wf) ->
  o = Uncaught (mkExc EOFError "EOF when reading a line")
  \/ exists k tries' line rest w1,
       iteration c start_time k tries stdin w = Some (tries', line, rest, w1)
       /\ attempt c start_time tries' line w1 = (inr o, wf).
Proof.
  induction stdin as [|l ls IH]; intros tries w o wf; cbn.
  - intros [= <- <-]. now left.
  - fold (prompted c l w).
    destruct (attempt c start_time (tries + 1) l (prompted c l w))
      as [[[]|o'] w'] eqn:E.
    + intros H. destruct (IH _ _ _ _ H) as [->|(k & t' & line & rest & w1 & Hk & Ha)].
      * now left.
      * right. exists (S k), t', line, rest, w1. cbn.
        fold (prompted c l w). rewrite E. now split.
    + intros [= <- <-]. right.
      exists O, (tries + 1), l, ls, (prompted c l w). now split.
Qed.

Lemma run_at_iteration a stdin w k c start_time tries line rest w1 :
  run_iteration a stdin w k = Some (c, start_time, (tries, line, rest, w1)) ->
  validate_parameters a = inr c
  /\ _generic_input a stdin w =
     match attempt c start_time tries line w1 with
     | (inl tt, w') => loop c start_time tries rest w'
     | (inr o, w') => (o, w')
     end.
Proof.
  unfold run_iteration, _generic_input.
  destruct (validate_parameters a) as [msg|c']; [discriminate|].
  destruct (time_time w) as [s w0].
  destruct (iteration c' s k 0 stdin w0) as [[[[t l] ls] w']|] eqn:E;
    [|discriminate].
  intros [= <- <- <- <- <- <-]. split; [reflexivity|].
  now apply loop_at_iteration with (k := k).
Qed.

Lemma run_ends a stdin w o wf :
  _generic_input a stdin w = (o, wf) ->
  (exists msg, o = RaiseConfig msg /\ wf = w)
  \/ o = Uncaught (mkExc EOFError "EOF when reading a line")
  \/ exists k c start_time tries line rest w1,
       run_iteration a stdin w k = Some (c, start_time, (tries, line, rest, w1))
       /\ attempt c start_time tries line w1 = (inr o, wf).
Proof.
  unfold run_iteration, _generic_input.
  destruct (validate_parameters a) as [msg|c].
  - intros [= <- <-]. left. now exists msg.
  - destruct (time_time w) as [s w0]. intros H.
    destruct (loop_ends _ _ _ _ _ _ _ H) as [->|(k & t & l & ls & w1 & Hk & Ha)].
    + right. now left.
    + right. right. exists k, c, s, t, l, ls, w1. rewrite Hk. now split.
Qed.

(** *** What validation of the arguments keeps *)

Lemma validated_config a c :
  validate_parameters a = inr c ->
  c_default c = default_value a
  /\ prompt a = VStr (c_prompt c)
  /\ validation_func a = Callable (c_validate c)
  /\ optional_callable (apply_func a) = Some (c_apply c)
  /\ optional_callable (post_validate_apply_func a) = Some (c_post c).
Proof.
  unfold validate_parameters.
  destruct (prompt a); try discriminate.
  destruct (negb (isinstance_num_or_None (timeout a))); [discriminate|].
  destruct (negb (isinstance_int_or_None (limit a))); [discriminate|].
  destruct (validation_func a) as [|vf]; [discriminate|].
  destruct (optional_callable (apply_func a)) as [af|]; [|discriminate].
  destruct (optional_callable (post_validate_apply_func a)) as [pf|];
    [|discriminate].
  destruct (password_mask a) as [| | | |m|]; try discriminate.
  - intros [= <-]. cbn. repeat split.
  - destruct (1 <? length m)%nat; [discriminate|].
    intros [= <-]. cbn. repeat split.
Qed.


Lemma callable_config a c :
  validate_parameters a = inr c ->
  (forall f, apply_func a = Callable f -> c_apply c = Some f)
  /\ (forall g, post_validate_apply_func a = Callable g -> c_post c = Some g)
  /\ (post_validate_apply_func a = Data VNone -> c_post c = None).
Proof.
  intros H. destruct (validated_config _ _ H) as (_ & _ & _ & Ha & Hp).
  repeat split.
  - intros f E. rewrite E in Ha. cbn in Ha. congruence.
  - intros g E. rewrite E in Hp. cbn in Hp. congruence.
  - intros E. rewrite E in Hp. cbn in Hp. congruence.
Qed.

(** *** Ways out of one iteration, and what it adds to the trace *)

Ltac attempt_inversion H :=
  rewrite attempt_cases in H; cbv zeta in H;
  repeat match type of H with
         | context [match ?t with _ => _ end] => destruct t eqn:?
         | context [if ?t then _ else _] => destruct t eqn:?
         end;
  inversion H; subst; clear H.

Lemma attempt_exit c start_time tries line w o w' :
  attempt c start_time tries line w = (inr o, w') ->
  match o with
  | RaiseConfig _ => False
  | RaiseLimitOrTimeout _ | RaiseTimeout => is_None (c_default c) = true
  | ReturnDefault v => v = c_default c /\ is_None (c_default c) = false
  | ReturnValue _ | Uncaught _ => True
  end.
Proof. intros H. attempt_inversion H; auto. Qed.

Lemma attempt_appends c start_time tries line w s w' :
  attempt c start_time tries line w = (s, w') ->
  exists evs,
    trace w' = trace w ++ evs
    /\ match s with
       | inr (ReturnValue _) | inr (Uncaught _) => True
       | _ => no_post_validate evs = true
       end.
Proof.
  intros H.
  attempt_inversion H; unfold after_clock; cbn;
    repeat match goal with
           | |- context [match ?t with Some _ => _ | None => _ end] => destruct t
           end; cbn;
    rewrite <- ?app_assoc;
    (eexists; split; [reflexivity|]); auto;
    unfold pre_events; destruct (c_apply c); reflexivity.
Qed.


(** A call of the post-validation transform recorded by an iteration is a
    call on the working value of a successful validation. *)
Lemma attempt_post_validate c start_time tries line w s w' evs u :
  attempt c start_time tries line w = (s, w') ->
  trace w' = trace w ++ evs ->
  In (EvPostValidate u) evs ->
  exists x r,
    pre_transform c line = Ok x /\ c_validate c x = Ok r
    /\ u = working_value x r
    /\ timeout_exceeded (current_time w) start_time (c_timeout c) = false.
Proof.
  intros H Ht Hin.
  rewrite attempt_cases in H. cbv zeta in H.
  destruct (pre_transform c line) as [x|e] eqn:Hpre;
    [ destruct (c_validate c x) as [r|e] eqn:Hval;
      [ destruct (timeout_exceeded (current_time w) start_time (c_timeout c))
          eqn:Hto;
        [ | destruct (c_post c) as [g|] ]
      | destruct (is_Exception e) ]
    | ];
    injection H as <- <-;
    revert Ht; unfold after_clock, pre_events in *;
    destruct (c_timeout c); destruct (c_apply c); cbn;
    rewrite <- ?app_assoc; cbn;
    intros Ht; apply app_inv_head in Ht; subst evs; cbn in Hin;
    try (exfalso; intuition discriminate).
  all: exists x, r; repeat split; intuition congruence.
Qed.

Lemma no_post_validate_app evs evs' :
  no_post_validate (evs ++ evs') = no_post_validate evs && no_post_validate evs'.
Proof. apply forallb_app. Qed.

Lemma loop_appends c start_time stdin :
  forall tries w,
  exists evs,
    trace (snd (loop c start_time tries stdin w)) = trace w ++ evs
    /\ match fst (loop c start_time tries stdin w) with
       | ReturnValue _ | Uncaught _ => True
       | _ => no_post_validate evs = true
       end.
Proof.
  induction stdin as [|l ls IH]; intros tries w; cbn.
  - eexists. split; [reflexivity|exact I].
  - fold (prompted c l w).
    destruct (attempt c start_time (tries + 1) l (prompted c l w))
      as [[[]|o] w'] eqn:E;
      destruct (attempt_appends _ _ _ _ _ _ _ E) as (evs & Ht & Hp);
      cbv beta iota in Hp.
    + destruct (IH (tries + 1) w') as (evs' & Ht' & Hp').
      exists ([EvPrint (c_prompt c); read_event c l] ++ evs ++ evs').
      split.
      * rewrite Ht', Ht. cbn. now rewrite <- !app_assoc.
      * destruct (fst (loop c start_time (tries + 1) ls w')); auto;
          rewrite !no_post_validate_app, Hp, Hp';
          unfold read_event; now destruct (c_mask c).
    + exists ([EvPrint (c_prompt c); read_event c l] ++ evs). split.
      * cbn. rewrite Ht. cbn. now rewrite <- !app_assoc.
      * cbn [fst]. destruct o; auto;
          rewrite no_post_validate_app, Hp;
          unfold read_event; now destruct (c_mask c).
Qed.

Lemma loop_post_validate c start_time stdin :
  forall tries w evs u,
  trace (snd (loop c start_time tries stdin w)) = trace w ++ evs ->
  In (EvPostValidate u) evs ->
  exists k tries' line rest w1 x r,
    iteration c start_time k tries stdin w = Some (tries', line, rest, w1)
    /\ pre_transform c line = Ok x /\ c_validate c x = Ok r
    /\ u = working_value x r
    /\ timeout_exceeded (current_time w1) start_time (c_timeout c) = false.
Proof.
  induction stdin as [|l ls IH]; intros tries w evs u; cbn.
  - intros Ht Hin. apply app_inv_head in Ht. subst evs.
    cbn in Hin. intuition discriminate.
  - fold (prompted c l w).
    destruct (attempt c start_time (tries + 1) l (prompted c l w))
      as [[[]|o] w'] eqn:E;
      destruct (attempt_appends _ _ _ _ _ _ _ E) as (evs1 & Ht1 & Hno);
      cbv beta iota in Hno.
    + destruct (loop_appends c start_time ls (tries + 1) w') as (evs2 & Ht2 & _).
      intros Ht Hin. rewrite Ht2, Ht1 in Ht. cbn in Ht.
      rewrite <- !app_assoc in Ht. apply app_inv_head in Ht. subst evs.
      assert (Hin2 : In (EvPostValidate u) evs2).
      { cbn in Hin. destruct Hin as [Hin|[Hin|Hin]].
        - discriminate.
        - unfold read_event in Hin. destruct (c_mask c); discriminate.
        - apply in_app_or in Hin. destruct Hin as [Hin|Hin]; [|exact Hin].
          unfold no_post_validate in Hno. rewrite forallb_forall in Hno.
          specialize (Hno _ Hin). discriminate. }
      destruct (IH _ _ _ _ Ht2 Hin2)
        as (k & t' & line & rest & w1 & x & r & Hk & H).
      exists (S k), t', line, rest, w1, x, r. split; [|exact H].
      cbn. fold (prompted c l w). now rewrite E.
    + cbn [snd]. intros Ht Hin. rewrite Ht1 in Ht. cbn in Ht.
      rewrite <- !app_assoc in Ht. apply app_inv_head in Ht. subst evs.
      assert (Hin1 : In (EvPostValidate u) evs1).
      { cbn in Hin. destruct Hin as [Hin|[Hin|Hin]].
        - discriminate.
        - unfold read_event in Hin. destruct (c_mask c); discriminate.
        - exact Hin. }
      destruct (attempt_post_validate _ _ _ _ _ _ _ _ _ E Ht1 Hin1)
        as (x & r & H).
      exists O, (tries + 1), l, ls, (prompted c l w), x, r. split; [|exact H].
      reflexivity.
Qed.


Lemma run_appends a stdin w :
  exists evs,
    trace (snd (_generic_input a stdin w)) = trace w ++ evs
    /\ match fst (_generic_input a stdin w) with
       | ReturnValue _ | Uncaught _ => True
       | _ => no_post_validate evs = true
       end.
Proof.
  unfold _generic_input. destruct (validate_parameters a) as [msg|c]; cbn.
  - exists []. now rewrite app_nil_r.
  - apply (loop_appends c (clock w (ticks w)) stdin 0
             (mkWorld (clock w) (S (ticks w)) (trace w))).
Qed.

Lemma is_None_false v : v <> VNone -> is_None v = false.
Proof. destruct v; cbn; intros; congruence. Qed.

(** *** One call of the loop *)

(** C2.  With a default value the loop raises neither the timeout nor the
    retry-limit error: no call leaves through the [raise] of line 151 or of
    line 164.  Whenever a budget is found exceeded, by the evaluator after
    a failed attempt or by the re-check after a successful one, the call
    returns the default. *)
Theorem default_replaces_limit_errors a stdin w :
  default_value a <> VNone ->
  let result := fst (_generic_input a stdin w) in
  (forall le, result <> RaiseLimitOrTimeout le)
  /\ result <> RaiseTimeout
  /\ (forall k c start_time tries line rest w1 x,
      run_iteration a stdin w k = Some (c, start_time, (tries, line, rest, w1)) ->
      pre_transform c line = Ok x ->
      (forall e le,
          c_validate c x = Exc e -> is_Exception e = true ->
          evaluate (current_time w1) start_time (c_timeout c) tries (c_limit c)
          = Some le ->
          result = ReturnDefault (default_value a))
      /\ (forall r,
          c_validate c x = Ok r ->
          timeout_exceeded (current_time w1) start_time (c_timeout c) = true ->
          result = ReturnDefault (default_value a))).
Proof.
  intros Hd result. apply is_None_false in Hd.
  assert (Hexit : forall o, result = o ->
            match o with
            | RaiseLimitOrTimeout _ | RaiseTimeout => False
            | _ => True
            end).
  { intros o Ho. subst result.
    destruct (_generic_input a stdin w) as [o' wf] eqn:E. cbn in Ho. subst o'.
    destruct (run_ends _ _ _ _ _ E)
      as [(msg & -> & _)|[->|(k & c & s & t & l & ls & w1 & Hk & Ha)]]; auto.
    destruct (run_at_iteration _ _ _ _ _ _ _ _ _ _ Hk) as [Hc _].
    destruct (validated_config _ _ Hc) as (Hdc & _).
    apply attempt_exit in Ha. rewrite Hdc in Ha.
    destruct o; auto; congruence. }
  split; [|split].
  - intros le H. exact (Hexit _ H).
  - intros H. exact (Hexit _ H).
  - intros k c start_time tries line rest w1 x Hk Hpre. subst result.
    destruct (run_at_iteration _ _ _ _ _ _ _ _ _ _ Hk) as [Hc ->].
    destruct (validated_config _ _ Hc) as (Hdc & _).
    rewrite attempt_cases, Hpre. cbn zeta. split.
    + intros e le Hval He Hev. now rewrite Hval, He, Hev, Hdc, Hd.
    + intros r Hval Hto. now rewrite Hval, Hto, Hdc, Hd.
Qed.

(** C3.  After an attempt whose validation succeeds the timeout is checked
    again: when it is set and has strictly elapsed, the call returns the
    default if there is one and raises the timeout error otherwise, the
    validated value is dropped, and the post-validation transform has not
    been called, in that attempt or before. *)
Theorem timeout_rechecked_after_success
    a stdin w k c start_time tries line rest w1 x r t :
  run_iteration a stdin w k = Some (c, start_time, (tries, line, rest, w1)) ->
  pre_transform c line = Ok x ->
  c_validate c x = Ok r ->
  c_timeout c = Some t ->
  flt (fadd start_time t) (current_time w1) = true ->
  _generic_input a stdin w
  = (if is_None (default_value a)
     then RaiseTimeout else ReturnDefault (default_value a),
     tick (emits (pre_events c line ++ [EvValidate x]) w1))
  /\ exists evs,
       trace (snd (_generic_input a stdin w)) = trace w ++ evs
       /\ no_post_validate evs = true.
Proof.
  intros Hk Hpre Hval Ht Hlate.
  assert (E : _generic_input a stdin w
              = (if is_None (default_value a)
                 then RaiseTimeout else ReturnDefault (default_value a),
                 tick (emits (pre_events c line ++ [EvValidate x]) w1))).
  { destruct (run_at_iteration _ _ _ _ _ _ _ _ _ _ Hk) as [Hc ->].
    destruct (validated_config _ _ Hc) as (Hd & _).
    rewrite attempt_cases, Hpre, Hval. cbn zeta.
    unfold timeout_exceeded, after_clock. rewrite Ht, Hlate, Hd.
    now destruct (default_value a). }
  split; [exact E|].
  destruct (run_appends a stdin w) as (evs & Htr & Hno).
  exists evs. split; [exact Htr|].
  rewrite E in Hno. now destruct (is_None (default_value a)).
Qed.

(** C4.  The message of a validation failure is displayed on every failed
    attempt, before the loop acts on the evaluator's answer: when the
    evaluator signals an outcome the call then ends with the default or
    with the limit error, and when it signals none the loop goes on to the
    next prompt. *)
Theorem validation_message_always_displayed
    a stdin w k c start_time tries line rest w1 x e :
  run_iteration a stdin w k = Some (c, start_time, (tries, line, rest, w1)) ->
  pre_transform c line = Ok x ->
  c_validate c x = Exc e ->
  is_Exception e = true ->
  let shown :=
    emits [EvPrintExc e; EvLog e]
      (after_clock c (emits (pre_events c line ++ [EvValidate x]) w1)) in
  (exists later,
      trace (snd (_generic_input a stdin w))
      = trace w1 ++ pre_events c line
          ++ [EvValidate x; EvPrintExc e; EvLog e] ++ later)
  /\ (forall le,
      evaluate (current_time w1) start_time (c_timeout c) tries (c_limit c)
      = Some le ->
      _generic_input a stdin w
      = (if is_None (default_value a)
         then RaiseLimitOrTimeout le else ReturnDefault (default_value a),
         shown))
  /\ (evaluate (current_time w1) start_time (c_timeout c) tries (c_limit c)
      = None ->
      _generic_input a stdin w = loop c start_time tries rest shown).
Proof.
  intros Hk Hpre Hval He shown.
  destruct (run_at_iteration _ _ _ _ _ _ _ _ _ _ Hk) as [Hc ->].
  destruct (validated_config _ _ Hc) as (Hdc & _).
  rewrite attempt_cases, Hpre, Hval, He. cbn zeta. fold shown.
  assert (Hshown : trace shown
                   = trace w1 ++ pre_events c line
                       ++ [EvValidate x; EvPrintExc e; EvLog e]).
  { unfold shown, after_clock. destruct (c_timeout c); cbn;
      now rewrite <- !app_assoc. }
  split; [|split].
  - destruct (evaluate _ _ _ _ _) as [le|].
    + exists []. rewrite app_nil_r.
      now destruct (is_None (c_default c)).
    + destruct (loop_appends c start_time rest tries shown) as (later & Hl & _).
      exists later. rewrite Hl, Hshown. now rewrite <- !app_assoc.
  - intros le ->. rewrite Hdc. now destruct (is_None (default_value a)).
  - now intros ->.
Qed.

(** C5.  The arguments are validated before the loop is entered: a
    configuration error leaves the world as the call found it, with no
    prompt, no read and no reading of the clock.  A mask that is present
    and is not a string, or is a string of more than one character, is a
    configuration error. *)
Theorem mask_longer_than_one_character_rejected a stdin w :
  (forall msg wf, _generic_input a stdin w = (RaiseConfig msg, wf) -> wf = w)
  /\ (password_mask a <> VNone ->
      (forall m, password_mask a = VStr m -> (1 < length m)%nat) ->
      exists msg, _generic_input a stdin w = (RaiseConfig msg, w)).
Proof.
  split.
  - intros msg wf E.
    destruct (run_ends _ _ _ _ _ E)
      as [(msg' & _ & ->)|[[=]|(k & c & s & t & l & ls & w1 & _ & Ha)]];
      [reflexivity|].
    now apply attempt_exit in Ha.
  - intros Hpresent Hlong.
    assert (H : exists msg, validate_parameters a = inl msg).
    { unfold validate_parameters.
      destruct (prompt a); try (eexists; reflexivity).
      destruct (negb _); [eexists; reflexivity|].
      destruct (negb _); [eexists; reflexivity|].
      destruct (validation_func a); [eexists; reflexivity|].
      destruct (optional_callable (apply_func a)); [|eexists; reflexivity].
      destruct (optional_callable (post_validate_apply_func a));
        [|eexists; reflexivity].
      destruct (password_mask a) as [| | | |m|] eqn:Em;
        try (eexists; reflexivity); [congruence|].
      specialize (Hlong m eq_refl). apply Nat.ltb_lt in Hlong.
      rewrite Hlong. eexists; reflexivity. }
    destruct H as [msg H].
    exists msg. unfold _generic_input. now rewrite H.
Qed.

(** C6.  The post-validation transform is applied to a validated value
    only.  A call that returns the default returns it as configured and has
    not called the transform; a call that returns a validated value with a
    transform configured returns the transform of the working value of the
    attempt that validated; and every call of the transform is a call on
    the working value of an attempt that validated. *)
Theorem post_validate_only_on_validated_value a stdin w :
  (forall v wf,
      _generic_input a stdin w = (ReturnDefault v, wf) ->
      v = default_value a
      /\ exists evs, trace wf = trace w ++ evs /\ no_post_validate evs = true)
  /\ (forall g v wf,
      post_validate_apply_func a = Callable g ->
      _generic_input a stdin w = (ReturnValue v, wf) ->
      exists k c start_time tries line rest w1 x r,
        run_iteration a stdin w k = Some (c, start_time, (tries, line, rest, w1))
        /\ pre_transform c line = Ok x
        /\ c_validate c x = Ok r
        /\ g (working_value x r) = Ok v
        /\ wf = emits [EvPostValidate (working_value x r)]
                  (after_clock c (emits (pre_events c line ++ [EvValidate x]) w1)))
  /\ (forall u evs,
      trace (snd (_generic_input a stdin w)) = trace w ++ evs ->
      In (EvPostValidate u) evs ->
      exists k c start_time tries line rest w1 x r,
        run_iteration a stdin w k = Some (c, start_time, (tries, line, rest, w1))
        /\ pre_transform c line = Ok x
        /\ c_validate c x = Ok r
        /\ u = working_value x r).
Proof.
  split; [|split].
  - intros v wf E. split.
    + destruct (run_ends _ _ _ _ _ E)
        as [(msg & [=] & _)|[[=]|(k & c & s & t & l & ls & w1 & Hk & Ha)]].
      destruct (run_at_iteration _ _ _ _ _ _ _ _ _ _ Hk) as [Hc _].
      destruct (validated_config _ _ Hc) as (Hdc & _).
      apply attempt_exit in Ha. now rewrite <- Hdc.
    + destruct (run_appends a stdin w) as (evs & Ht & Hp).
      rewrite E in Ht, Hp. now exists evs.
  - intros g v wf Eg E.
    destruct (run_ends _ _ _ _ _ E)
      as [(msg & [=] & _)|[[=]|(k & c & s & t & l & ls & w1 & Hk & Ha)]].
    destruct (run_at_iteration _ _ _ _ _ _ _ _ _ _ Hk) as [Hc _].
    destruct (callable_config _ _ Hc) as (_ & Hg & _).
    rewrite attempt_cases in Ha. cbv zeta in Ha.
    destruct (pre_transform c l) as [x|e] eqn:Hpre; [|discriminate].
    destruct (c_validate c x) as [r|e] eqn:Hval.
    + destruct (timeout_exceeded _ _ _);
        [destruct (is_None (c_default c)); discriminate|].
      rewrite (Hg _ Eg) in Ha.
      destruct (g (working_value x r)) as [v'|e] eqn:Hv; [|discriminate].
      injection Ha as <- <-.
      exists k, c, s, t, l, ls, w1, x, r. repeat split; assumption.
    + destruct (is_Exception e); [|discriminate].
      destruct (evaluate _ _ _ _ _);
        [destruct (is_None (c_default c))|]; discriminate.
  - intros u evs. unfold _generic_input, run_iteration.
    destruct (validate_parameters a) as [msg|c]; cbn.
    + intros Ht Hin. rewrite <- (app_nil_r (trace w)) in Ht at 1.
      apply app_inv_head in Ht. now subst evs.
    + intros Ht Hin.
      destruct (loop_post_validate c (clock w (ticks w)) stdin 0
                  (mkWorld (clock w) (S (ticks w)) (trace w)) evs u Ht Hin)
        as (k & t & l & ls & w1 & x & r & Hk & Hpre & Hval & Hu & _).
      exists k, c, (clock w (ticks w)), t, l, ls, w1, x, r.
      rewrite Hk. repeat split; assumption.
Qed.

(** C7.  The retry limit is looked at on failed attempts only: when an
    attempt validates and the timeout has not elapsed, the call returns the
    working value, through the post-validation transform if there is one,
    and raises neither limit error, whatever [tries] and [limit] are. *)
Theorem success_ignores_retry_limit
    a stdin w k c start_time tries line rest w1 x r :
  run_iteration a stdin w k = Some (c, start_time, (tries, line, rest, w1)) ->
  pre_transform c line = Ok x ->
  c_validate c x = Ok r ->
  timeout_exceeded (current_time w1) start_time (c_timeout c) = false ->
  let result := fst (_generic_input a stdin w) in
  (forall le, result <> RaiseLimitOrTimeout le)
  /\ result <> RaiseTimeout
  /\ (post_validate_apply_func a = Data VNone ->
      result = ReturnValue (working_value x r))
  /\ (forall g v, post_validate_apply_func a = Callable g ->
      g (working_value x r) = Ok v -> result = ReturnValue v).
Proof.
  intros Hk Hpre Hval Hnot result. subst result.
  destruct (run_at_iteration _ _ _ _ _ _ _ _ _ _ Hk) as [Hc ->].
  destruct (callable_config _ _ Hc) as (_ & Hg & Hn).
  rewrite attempt_cases, Hpre, Hval. cbn zeta. rewrite Hnot.
  repeat split.
  - intros le. destruct (c_post c) as [g|]; [destruct (g _)|]; discriminate.
  - destruct (c_post c) as [g|]; [destruct (g _)|]; discriminate.
  - intros E. now rewrite (Hn E).
  - intros g v E Hv. now rewrite (Hg _ E), Hv.
Qed.

(** C8.  An exception of the pre-validation or of the post-validation
    transform leaves the loop as it is: the call ends with that exception,
    there is no further prompt, and a default value does not replace it. *)
Theorem transform_exceptions_propagate
    a stdin w k c start_time tries line rest w1 :
  run_iteration a stdin w k = Some (c, start_time, (tries, line, rest, w1)) ->
  (forall f e,
      apply_func a = Callable f -> f (VStr line) = Exc e ->
      _generic_input a stdin w = (Uncaught e, emits [EvApply (VStr line)] w1)
      /\ observe (Uncaught e) = Exc e)
  /\ (forall x r g e,
      pre_transform c line = Ok x ->
      c_validate c x = Ok r ->
      timeout_exceeded (current_time w1) start_time (c_timeout c) = false ->
      post_validate_apply_func a = Callable g ->
      g (working_value x r) = Exc e ->
      _generic_input a stdin w
      = (Uncaught e,
         emits [EvPostValidate (working_value x r)]
           (after_clock c (emits (pre_events c line ++ [EvValidate x]) w1)))
      /\ observe (Uncaught e) = Exc e).
Proof.
  intros Hk.
  destruct (run_at_iteration _ _ _ _ _ _ _ _ _ _ Hk) as [Hc ->].
  destruct (callable_config _ _ Hc) as (Hf & Hg & _).
  split.
  - intros f e Ef He. split; [|reflexivity].
    rewrite attempt_cases. unfold pre_transform, pre_events.
    now rewrite (Hf _ Ef), He.
  - intros x r g e Hpre Hval Hnot Eg He. split; [|reflexivity].
    rewrite attempt_cases, Hpre, Hval. cbn zeta.
    now rewrite Hnot, (Hg _ Eg), He.
Qed.


(** *** More on the iterations of a call *)

Lemma attempt_continues c start_time tries line w w' :
  attempt c start_time tries line w = (inl tt, w') ->
  exists x e,
    pre_transform c line = Ok x
    /\ c_validate c x = Exc e
    /\ is_Exception e = true
    /\ evaluate (current_time w) start_time (c_timeout c) tries (c_limit c) = None
    /\ w' = emits [EvPrintExc e; EvLog e]
              (after_clock c (emits (pre_events c line ++ [EvValidate x]) w)).
Proof.
  intros H. rewrite attempt_cases in H. cbv zeta in H.
  destruct (pre_transform c line) as [x|e]; [|discriminate].
  destruct (c_validate c x) as [r|e] eqn:Hval.
  - destruct (timeout_exceeded _ _ _); [discriminate|].
    destruct (c_post c) as [g|]; [destruct (g _)|]; discriminate.
  - destruct (is_Exception e) eqn:He; [|discriminate].
    destruct (evaluate _ _ _ _ _) eqn:Hev.
    + destruct (is_None (c_default c)); discriminate.
    + injection H as <-. exists x, e. repeat split; assumption.
Qed.

Lemma iteration_state c start_time k :
  forall tries stdin w tries' line rest w1,
  iteration c start_time k tries stdin w = Some (tries', line, rest, w1) ->
  tries' = tries + Z.of_nat k + 1
  /\ nth_error stdin k = Some line
  /\ rest = skipn (S k) stdin.
Proof.
  induction k as [|k IH]; intros tries stdin w tries' line rest w1;
    destruct stdin as [|l ls]; cbn -[Z.of_nat]; try discriminate.
  - intros [= <- <- <- <-]. repeat split. cbn. lia.
  - fold (prompted c l w).
    destruct (attempt c start_time (tries + 1) l (prompted c l w)) as [[[]|o] w'];
      [|discriminate].
    intros H. destruct (IH _ _ _ _ _ _ _ H) as (-> & Hn & Hr).
    repeat split; [lia|exact Hn|exact Hr].
Qed.

Lemma iteration_earlier c start_time k :
  forall tries stdin w st,
  iteration c start_time k tries stdin w = Some st ->
  forall j, (j < k)%nat ->
  exists tries_j line_j rest_j w_j w',
    iteration c start_time j tries stdin w = Some (tries_j, line_j, rest_j, w_j)
    /\ attempt c start_time tries_j line_j w_j = (inl tt, w').
Proof.
  induction k as [|k IH]; intros tries stdin w st H j Hj; [lia|].
  destruct stdin as [|l ls]; [discriminate|]. cbn in H.
  fold (prompted c l w) in H.
  destruct (attempt c start_time (tries + 1) l (prompted c l w))
    as [[[]|o] w'] eqn:E; [|discriminate].
  destruct j as [|j].
  - exists (tries + 1), l, ls, (prompted c l w), w'. now split.
  - destruct (IH _ _ _ _ H j ltac:(lia)) as (tj & lj & rj & wj & w'' & Hj' & Ha).
    exists tj, lj, rj, wj, w''. split; [|exact Ha].
    cbn. fold (prompted c l w). now rewrite E.
Qed.

(** X1.  In its [k]-th iteration (from 0) a call has made exactly [k + 1]
    reads: [tries] is [k + 1], the line under validation is line [k] of the
    console, the lines after it are still pending, and the start time is
    the first reading of the clock. *)
Theorem iteration_reads_in_order a stdin w k c start_time tries line rest w1 :
  run_iteration a stdin w k = Some (c, start_time, (tries, line, rest, w1)) ->
  tries = Z.of_nat k + 1
  /\ nth_error stdin k = Some line
  /\ rest = skipn (S k) stdin
  /\ start_time = current_time w.
Proof.
  unfold run_iteration.
  destruct (validate_parameters a) as [msg|c']; [discriminate|].
  cbn [time_time].
  destruct (iteration c' (clock w (ticks w)) k 0 stdin _)
    as [[[[t l] ls] w']|] eqn:E; [|discriminate].
  intros [= <- <- <- <- <- <-].
  destruct (iteration_state _ _ _ _ _ _ _ _ _ _ E) as (Ht & Hn & Hr).
  repeat split; [lia|exact Hn|exact Hr].
Qed.

(** X2.  The loop prompts again only after a validation failure on which
    the evaluator signalled nothing: when a call reaches its [k]-th
    iteration, every earlier iteration was reached, its validation raised
    an [Exception], and neither budget was found exceeded. *)
Theorem reprompt_only_after_failure a stdin w k c start_time st :
  run_iteration a stdin w k = Some (c, start_time, st) ->
  forall j, (j < k)%nat ->
  exists tries_j line_j rest_j w_j x e,
    run_iteration a stdin w j
    = Some (c, start_time, (tries_j, line_j, rest_j, w_j))
    /\ pre_transform c line_j = Ok x
    /\ c_validate c x = Exc e
    /\ is_Exception e = true
    /\ evaluate (current_time w_j) start_time (c_timeout c) tries_j (c_limit c)
       = None.
Proof.
  unfold run_iteration.
  destruct (validate_parameters a) as [msg|c']; [discriminate|].
  cbn [time_time].
  destruct (iteration c' (clock w (ticks w)) k 0 stdin _) as [st'|] eqn:E;
    [|discriminate].
  intros [= <- <- <-] j Hj.
  destruct (iteration_earlier _ _ _ _ _ _ _ E j Hj)
    as (tj & lj & rj & wj & w' & Hj' & Ha).
  destruct (attempt_continues _ _ _ _ _ _ Ha) as (x & e & Hpre & Hval & He & Hev & _).
  exists tj, lj, rj, wj, x, e. rewrite Hj'. repeat split; assumption.
Qed.


(** *** The console during a call *)

Lemma lines_read_app evs evs' :
  lines_read (evs ++ evs') = lines_read evs ++ lines_read evs'.
Proof.
  induction evs as [|e evs IH]; [reflexivity|].
  cbn. destruct (line_of e); cbn; now rewrite IH.
Qed.

Lemma prompts_shown_app evs evs' :
  prompts_shown (evs ++ evs') = prompts_shown evs ++ prompts_shown evs'.
Proof.
  induction evs as [|e evs IH]; [reflexivity|].
  destruct e; cbn; now rewrite IH.
Qed.

Lemma no_console_silent evs :
  forallb (fun e => negb (is_console e)) evs = true ->
  lines_read evs = [] /\ prompts_shown evs = [].
Proof.
  induction evs as [|e evs IH]; [now split|].
  cbn. intros H. apply andb_prop in H. destruct H as [He H].
  destruct (IH H) as [Hl Hp]. destruct e; try discriminate; now split.
Qed.

(** An iteration's body neither prompts nor reads. *)
Lemma attempt_no_console c start_time tries line w s w' :
  attempt c start_time tries line w = (s, w') ->
  exists evs,
    trace w' = trace w ++ evs
    /\ forallb (fun e => negb (is_console e)) evs = true.
Proof.
  intros H.
  attempt_inversion H; unfold after_clock; cbn;
    repeat match goal with
           | |- context [match ?t with Some _ => _ | None => _ end] => destruct t
           end; cbn;
    rewrite <- ?app_assoc;
    (eexists; split; [reflexivity|]);
    unfold pre_events; destruct (c_apply c); reflexivity.
Qed.

Lemma read_event_line c line : line_of (read_event c line) = Some line.
Proof. unfold read_event. now destruct (c_mask c). Qed.

Lemma read_event_console c line : is_console (read_event c line) = true.
Proof. unfold read_event. now destruct (c_mask c). Qed.

Lemma lines_read_prompted c line evs :
  lines_read (EvPrint (c_prompt c) :: read_event c line :: evs)
  = line :: lines_read evs.
Proof. cbn. now rewrite read_event_line. Qed.

Lemma prompts_shown_prompted c line evs :
  prompts_shown (EvPrint (c_prompt c) :: read_event c line :: evs)
  = c_prompt c :: prompts_shown evs.
Proof. cbn. unfold read_event. now destruct (c_mask c). Qed.

Lemma loop_console c start_time stdin :
  forall tries w,
  exists evs n,
    trace (snd (loop c start_time tries stdin w)) = trace w ++ evs
    /\ lines_read evs = firstn n stdin
    /\ (n <= List.length stdin)%nat
    /\ (prompts_shown evs = repeat (c_prompt c) n
        \/ (n = List.length stdin
            /\ fst (loop c start_time tries stdin w) = Uncaught end_of_input
            /\ prompts_shown evs = repeat (c_prompt c) (S n))).
Proof.
  induction stdin as [|l ls IH]; intros tries w; cbn [loop].
  - exists [EvPrint (c_prompt c)], O. cbn. repeat split; auto.
  - fold (prompted c l w).
    destruct (attempt c start_time (tries + 1) l (prompted c l w))
      as [[[]|o] w'] eqn:E;
      destruct (attempt_no_console _ _ _ _ _ _ _ E) as (evs & Ht & Hq);
      destruct (no_console_silent _ Hq) as [Hl Hp].
    + destruct (IH (tries + 1) w') as (evs' & n & Ht' & Hl' & Hn & Hp').
      exists (EvPrint (c_prompt c) :: read_event c l :: evs ++ evs'), (S n).
      split; [|split; [|split]].
      * rewrite Ht', Ht. cbn. now rewrite <- !app_assoc.
      * rewrite lines_read_prompted, lines_read_app, Hl, Hl'. reflexivity.
      * cbn. lia.
      * rewrite prompts_shown_prompted, prompts_shown_app, Hp. cbn [app].
        destruct Hp' as [Hp'|(-> & Ho & Hp')]; rewrite Hp'.
        -- now left.
        -- right. now repeat split.
    + exists (EvPrint (c_prompt c) :: read_event c l :: evs), 1%nat.
      split; [|split; [|split]].
      * cbn. rewrite Ht. cbn. now rewrite <- !app_assoc.
      * rewrite lines_read_prompted, Hl. reflexivity.
      * cbn. lia.
      * left. rewrite prompts_shown_prompted, Hp. reflexivity.
Qed.

(** X3.  A call reads the lines of the console in order, without skipping
    any, and shows the configured prompt, and no other, as many times as it
    reads a line, and once more only when the console has run dry, in
    which case it ends with [EOFError]. *)
Theorem console_read_in_order a stdin w :
  exists evs n,
    trace (snd (_generic_input a stdin w)) = trace w ++ evs
    /\ lines_read evs = firstn n stdin
    /\ (n <= List.length stdin)%nat
    /\ forall p, prompt a = VStr p ->
       prompts_shown evs = repeat p n
       \/ (n = List.length stdin
           /\ fst (_generic_input a stdin w) = Uncaught end_of_input
           /\ prompts_shown evs = repeat p (S n)).
Proof.
  unfold _generic_input.
  destruct (validate_parameters a) as [msg|c] eqn:Hc.
  - exists [], O. cbn. rewrite app_nil_r. repeat split; auto. lia.
  - cbn [time_time].
    destruct (loop_console c (clock w (ticks w)) stdin 0
                (mkWorld (clock w) (S (ticks w)) (trace w)))
      as (evs & n & Ht & Hl & Hn & Hp).
    exists evs, n. repeat split; try assumption.
    intros p Ep. destruct (validated_config _ _ Hc) as (_ & Hprompt & _).
    rewrite Ep in Hprompt. injection Hprompt as ->. exact Hp.
Qed.


Lemma validated_mask a c :
  validate_parameters a = inr c ->
  match c_mask c with
  | None => password_mask a = VNone
  | Some m => password_mask a = VStr m /\ (length m <= 1)%nat
  end.
Proof.
  unfold validate_parameters.
  destruct (prompt a); try discriminate.
  destruct (negb (isinstance_num_or_None (timeout a))); [discriminate|].
  destruct (negb (isinstance_int_or_None (limit a))); [discriminate|].
  destruct (validation_func a) as [|vf]; [discriminate|].
  destruct (optional_callable (apply_func a)) as [af|]; [|discriminate].
  destruct (optional_callable (post_validate_apply_func a)) as [pf|];
    [|discriminate].
  destruct (password_mask a) as [| | | |m|]; try discriminate.
  - intros [= <-]. reflexivity.
  - destruct (1 <? length m)%nat eqn:E; [discriminate|].
    intros [= <-]. cbn. split; [reflexivity|].
    apply Nat.ltb_ge in E. exact E.
Qed.

Lemma read_matches_no_console mask evs :
  forallb (fun e => negb (is_console e)) evs = true ->
  forallb (read_matches mask) evs = true.
Proof.
  induction evs as [|e evs IH]; [reflexivity|].
  cbn. intros H. apply andb_prop in H. destruct H as [He H].
  rewrite (IH H), andb_true_r. destruct e; try discriminate; now destruct mask.
Qed.

Lemma loop_read_matches c start_time mask stdin :
  (forall line, read_matches mask (read_event c line) = true) ->
  forall tries w,
  exists evs,
    trace (snd (loop c start_time tries stdin w)) = trace w ++ evs
    /\ forallb (read_matches mask) evs = true.
Proof.
  intros Hread.
  induction stdin as [|l ls IH]; intros tries w; cbn [loop].
  - exists [EvPrint (c_prompt c)]. split; [reflexivity|]. now destruct mask.
  - fold (prompted c l w).
    destruct (attempt c start_time (tries + 1) l (prompted c l w))
      as [[[]|o] w'] eqn:E;
      destruct (attempt_no_console _ _ _ _ _ _ _ E) as (evs & Ht & Hq);
      apply (read_matches_no_console mask) in Hq.
    + destruct (IH (tries + 1) w') as (evs' & Ht' & Hm).
      exists (EvPrint (c_prompt c) :: read_event c l :: evs ++ evs'). split.
      * rewrite Ht', Ht. cbn. now rewrite <- !app_assoc.
      * cbn [forallb]. rewrite Hread, forallb_app, Hq, Hm. now destruct mask.
    + exists (EvPrint (c_prompt c) :: read_event c l :: evs). split.
      * cbn. rewrite Ht. cbn. now rewrite <- !app_assoc.
      * cbn [forallb]. rewrite Hread, Hq. now destruct mask.
Qed.

(** X4.  One call uses one way of reading: every read of a call without a
    mask is a plain [input()], and every read of a call with a mask is a
    masked read with that very mask. *)
Theorem reads_follow_the_mask a stdin w :
  exists evs,
    trace (snd (_generic_input a stdin w)) = trace w ++ evs
    /\ forallb (read_matches (password_mask a)) evs = true.
Proof.
  unfold _generic_input.
  destruct (validate_parameters a) as [msg|c] eqn:Hc.
  - exists []. cbn. now rewrite app_nil_r.
  - cbn [time_time].
    destruct (loop_read_matches c (clock w (ticks w)) (password_mask a) stdin)
      with (tries := 0) (w := mkWorld (clock w) (S (ticks w)) (trace w))
      as (evs & Ht & Hm).
    + intros line. pose proof (validated_mask _ _ Hc) as Hm.
      unfold read_event. destruct (c_mask c) as [m|].
      * destruct Hm as [-> _]. cbn. apply String.eqb_refl.
      * now rewrite Hm.
    + exists evs. split; [exact Ht|exact Hm].
Qed.


(** *** Budgets *)

Lemma validated_budgets a c :
  validate_parameters a = inr c ->
  c_timeout c = timeout_of (timeout a) /\ c_limit c = limit_of (limit a).
Proof.
  unfold validate_parameters.
  destruct (prompt a); try discriminate.
  destruct (negb (isinstance_num_or_None (timeout a))); [discriminate|].
  destruct (negb (isinstance_int_or_None (limit a))); [discriminate|].
  destruct (validation_func a) as [|vf]; [discriminate|].
  destruct (optional_callable (apply_func a)) as [af|]; [|discriminate].
  destruct (optional_callable (post_validate_apply_func a)) as [pf|];
    [|discriminate].
  destruct (password_mask a) as [| | | |m|]; try discriminate.
  - intros [= <-]. now split.
  - destruct (1 <? length m)%nat; [discriminate|].
    intros [= <-]. now split.
Qed.

Lemma evaluate_None now start_time timeout tries limit :
  evaluate now start_time timeout tries limit = None ->
  timeout_exceeded now start_time timeout = false
  /\ limit_reached tries limit = false.
Proof.
  unfold evaluate.
  destruct (timeout_exceeded now start_time timeout); [discriminate|].
  destruct (limit_reached tries limit); [discriminate|]. now split.
Qed.

Lemma timeout_exceeded_set now start_time timeout :
  timeout_exceeded now start_time timeout = true -> timeout <> None.
Proof. destruct timeout; [discriminate|]. cbn. discriminate. Qed.

Lemma evaluate_Some now start_time timeout tries limit le :
  evaluate now start_time timeout tries limit = Some le ->
  match le with
  | TimeoutExceeded => timeout <> None
  | RetryLimitExceeded => limit <> None
  end.
Proof.
  unfold evaluate.
  destruct (timeout_exceeded now start_time timeout) eqn:Hto.
  - intros [= <-]. now apply timeout_exceeded_set in Hto.
  - destruct (limit_reached tries limit) eqn:Hl; [|discriminate].
    intros [= <-]. destruct limit; [discriminate|]. cbn in Hl. discriminate.
Qed.

Lemma loop_retry_bound c start_time l stdin :
  c_limit c = Some l ->
  forall tries w,
  exists evs,
    trace (snd (loop c start_time tries stdin w)) = trace w ++ evs
    /\ Z.of_nat (List.length (lines_read evs)) <= Z.max 1 (l - tries).
Proof.
  intros Hl.
  induction stdin as [|l0 ls IH]; intros tries w; cbn [loop].
  - exists [EvPrint (c_prompt c)]. split; [reflexivity|]. cbn. lia.
  - fold (prompted c l0 w).
    destruct (attempt c start_time (tries + 1) l0 (prompted c l0 w))
      as [[[]|o] w'] eqn:E;
      destruct (attempt_no_console _ _ _ _ _ _ _ E) as (evs & Ht & Hq);
      destruct (no_console_silent _ Hq) as [Hr _].
    + destruct (attempt_continues _ _ _ _ _ _ E) as (x & e & _ & _ & _ & Hev & _).
      apply evaluate_None in Hev. destruct Hev as [_ Hlim].
      rewrite Hl in Hlim. cbn in Hlim. apply Z.leb_gt in Hlim.
      destruct (IH (tries + 1) w') as (evs' & Ht' & Hb).
      exists (EvPrint (c_prompt c) :: read_event c l0 :: evs ++ evs'). split.
      * rewrite Ht', Ht. cbn. now rewrite <- !app_assoc.
      * rewrite lines_read_prompted, lines_read_app, Hr. cbn [app List.length].
        lia.
    + exists (EvPrint (c_prompt c) :: read_event c l0 :: evs). split.
      * cbn. rewrite Ht. cbn. now rewrite <- !app_assoc.
      * rewrite lines_read_prompted, Hr. cbn. lia.
Qed.

(** X5.  A retry limit bounds the reads of a call: with a limit [l] the
    call reads at most [l] lines, and at most one line when [l] is below
    one, whatever the validator and the clock do. *)
Theorem reads_bounded_by_limit a stdin w l :
  limit_of (limit a) = Some l ->
  exists evs,
    trace (snd (_generic_input a stdin w)) = trace w ++ evs
    /\ Z.of_nat (List.length (lines_read evs)) <= Z.max 1 l.
Proof.
  intros Hl. unfold _generic_input.
  destruct (validate_parameters a) as [msg|c] eqn:Hc.
  - exists []. cbn. rewrite app_nil_r. split; [reflexivity|lia].
  - cbn [time_time].
    destruct (validated_budgets _ _ Hc) as [_ Hcl]. rewrite Hl in Hcl.
    destruct (loop_retry_bound c (clock w (ticks w)) l stdin Hcl 0
                (mkWorld (clock w) (S (ticks w)) (trace w)))
      as (evs & Ht & Hb).
    exists evs. split; [exact Ht|]. now rewrite Z.sub_0_r in Hb.
Qed.

(** X6.  A call gives up only on a budget that is configured: it raises
    the retry-limit error only when a limit is set, a timeout error only
    when a timeout is set, and returns the default only when one of the
    two is set. *)
Theorem giving_up_needs_a_budget a stdin w :
  let result := fst (_generic_input a stdin w) in
  (result = RaiseLimitOrTimeout RetryLimitExceeded -> limit a <> VNone)
  /\ (result = RaiseLimitOrTimeout TimeoutExceeded \/ result = RaiseTimeout ->
      timeout a <> VNone)
  /\ (forall v, result = ReturnDefault v ->
      timeout a <> VNone \/ limit a <> VNone).
Proof.
  cbv zeta.
  assert (Hexit : forall c start_time tries line w1 o wf,
             attempt c start_time tries line w1 = (inr o, wf) ->
             match o with
             | RaiseLimitOrTimeout RetryLimitExceeded => c_limit c <> None
             | RaiseLimitOrTimeout TimeoutExceeded | RaiseTimeout =>
                 c_timeout c <> None
             | ReturnDefault _ => c_timeout c <> None \/ c_limit c <> None
             | _ => True
             end).
  { intros c s t l w1 o wf H.
    attempt_inversion H; cbn; auto;
      repeat match goal with
             | Hev : evaluate _ _ _ _ _ = Some _ |- _ =>
                 apply evaluate_Some in Hev
             | Hto : timeout_exceeded _ _ _ = true |- _ =>
                 apply timeout_exceeded_set in Hto
             end; auto.
    match goal with Hev : match ?le with _ => _ end |- _ => destruct le end;
      auto. }
  assert (Hrun : forall o, fst (_generic_input a stdin w) = o ->
             match o with
             | RaiseLimitOrTimeout RetryLimitExceeded => limit a <> VNone
             | RaiseLimitOrTimeout TimeoutExceeded | RaiseTimeout =>
                 timeout a <> VNone
             | ReturnDefault _ => timeout a <> VNone \/ limit a <> VNone
             | _ => True
             end).
  { intros o Ho. destruct (_generic_input a stdin w) as [o' wf] eqn:E.
    cbn in Ho. subst o'.
    destruct (run_ends _ _ _ _ _ E)
      as [(msg & -> & _)|[->|(k & c & s & t & l & ls & w1 & Hk & Ha)]]; auto.
    destruct (run_at_iteration _ _ _ _ _ _ _ _ _ _ Hk) as [Hc _].
    destruct (validated_budgets _ _ Hc) as [Hto Hli].
    apply Hexit in Ha. rewrite Hto, Hli in Ha.
    assert (Ht : timeout_of (timeout a) <> None -> timeout a <> VNone)
      by (intros H1 H2; apply H1; now rewrite H2).
    assert (Hl : limit_of (limit a) <> None -> limit a <> VNone)
      by (intros H1 H2; apply H1; now rewrite H2).
    destruct o as [v|v|msg|[]| |e]; auto.
    destruct Ha; [left|right]; auto. }
  split; [|split].
  - intros H. exact (Hrun _ H).
  - intros [H|H]; exact (Hrun _ H).
  - intros v H. exact (Hrun _ H).
Qed.


(** *** A console that is rejected line after line *)

Lemma attempt_rejected c start_time tries line w e :
  c_apply c = None ->
  c_timeout c = None ->
  c_validate c (VStr line) = Exc e ->
  is_Exception e = true ->
  attempt c start_time tries line w
  = (match (if limit_reached tries (c_limit c)
            then Some RetryLimitExceeded else None) with
     | Some le =>
         if is_None (c_default c)
         then inr (RaiseLimitOrTimeout le)
         else inr (ReturnDefault (c_default c))
     | None => inl tt
     end,
     emits [EvValidate (VStr line); EvPrintExc e; EvLog e] w).
Proof.
  intros Ha Ht Hv He. rewrite attempt_cases.
  unfold pre_transform, pre_events, after_clock, evaluate. rewrite Ha, Ht.
  cbn. rewrite Hv, He. f_equal. world.
Qed.

Lemma loop_rejected_until_limit c start_time fail l stdin :
  c_apply c = None ->
  c_timeout c = None ->
  c_limit c = Some l ->
  forall tries w,
  let n := Z.to_nat (Z.max 1 (l - tries)) in
  (n <= List.length stdin)%nat ->
  (forall line, In line (firstn n stdin) ->
     c_validate c (VStr line) = Exc (fail line)
     /\ is_Exception (fail line) = true) ->
  loop c start_time tries stdin w
  = (if is_None (c_default c)
     then RaiseLimitOrTimeout RetryLimitExceeded
     else ReturnDefault (c_default c),
     emits (rejections c fail (firstn n stdin)) w).
Proof.
  intros Ha Ht Hl.
  induction stdin as [|l0 ls IH]; intros tries w n Hn Hrej.
  - cbn in Hn. lia.
  - assert (Hn' : exists m, n = S m) by (exists (Nat.pred n); lia).
    destruct Hn' as [m Hm].
    destruct (Hrej l0) as [Hv He]; [rewrite Hm; now left|].
    cbn [loop]. fold (prompted c l0 w).
    rewrite (attempt_rejected c start_time (tries + 1) l0 _ _ Ha Ht Hv He).
    rewrite Hl. cbn [limit_reached].
    destruct (l <=? tries + 1)%Z eqn:E.
    + apply Z.leb_le in E.
      assert (m = O) by lia. subst m. rewrite Hm. cbn.
      destruct (is_None (c_default c)); f_equal;
        unfold rejection, prompted; world.
    + apply Z.leb_gt in E.
      rewrite IH.
      * assert (Hm' : Z.to_nat (Z.max 1 (l - (tries + 1))) = m) by lia.
        rewrite Hm', Hm. cbn [firstn rejections flat_map].
        f_equal. unfold rejection, prompted. fold (rejections c fail (firstn m ls)).
        world.
      * cbn in Hn. lia.
      * intros line Hin. apply Hrej.
        assert (Hm' : Z.to_nat (Z.max 1 (l - (tries + 1))) = m) by lia.
        rewrite Hm' in Hin. rewrite Hm. now right.
Qed.

Lemma lines_read_rejections c fail lines :
  lines_read (rejections c fail lines) = lines.
Proof.
  unfold rejections.
  induction lines as [|l0 ls IH]; [reflexivity|].
  cbn. rewrite read_event_line. cbn. now rewrite IH.
Qed.

(** X7.  With a retry limit [l], no timeout and no pre-validation
    transform, a console whose first [max 1 l] lines are all rejected ends
    the call on exactly that many reads: each of them is prompted for,
    validated and answered with its failure message, and then the default
    is returned, or the retry-limit error raised when there is none. *)
Theorem rejected_until_limit a stdin w c fail l :
  validate_parameters a = inr c ->
  apply_func a = Data VNone ->
  timeout a = VNone ->
  limit_of (limit a) = Some l ->
  let n := Z.to_nat (Z.max 1 l) in
  (n <= List.length stdin)%nat ->
  (forall line, In line (firstn n stdin) ->
     c_validate c (VStr line) = Exc (fail line)
     /\ is_Exception (fail line) = true) ->
  _generic_input a stdin w
  = (if is_None (default_value a)
     then RaiseLimitOrTimeout RetryLimitExceeded
     else ReturnDefault (default_value a),
     emits (rejections c fail (firstn n stdin)) (tick w))
  /\ lines_read (rejections c fail (firstn n stdin)) = firstn n stdin.
Proof.
  intros Hc Ha Ht Hl n Hn Hrej.
  destruct (validated_config _ _ Hc) as (Hd & _ & _ & Hca & _).
  destruct (validated_budgets _ _ Hc) as [Hct Hcl].
  rewrite Ha in Hca. cbn in Hca. injection Hca as Hca.
  rewrite Ht in Hct. cbn in Hct. rewrite Hl in Hcl.
  split.
  - unfold _generic_input. rewrite Hc. cbn [time_time].
    rewrite (loop_rejected_until_limit c _ fail l stdin
               (eq_sym Hca) Hct Hcl 0 _);
      rewrite ?Z.sub_0_r; fold n; try assumption.
    now rewrite Hd.
  - apply lines_read_rejections.
Qed.

Lemma loop_rejected_to_the_end c start_time fail stdin :
  c_apply c = None ->
  c_timeout c = None ->
  c_limit c = None ->
  (forall line, In line stdin ->
     c_validate c (VStr line) = Exc (fail line)
     /\ is_Exception (fail line) = true) ->
  forall tries w,
  loop c start_time tries stdin w
  = (Uncaught end_of_input,
     emits (rejections c fail stdin ++ [EvPrint (c_prompt c)]) w).
Proof.
  intros Ha Ht Hl.
  induction stdin as [|l0 ls IH]; intros Hrej tries w.
  - cbn. f_equal.
  - destruct (Hrej l0) as [Hv He]; [now left|].
    cbn [loop]. fold (prompted c l0 w).
    rewrite (attempt_rejected c start_time (tries + 1) l0 _ _ Ha Ht Hv He).
    rewrite Hl. cbn [limit_reached].
    rewrite IH by (intros line Hin; apply Hrej; now right).
    f_equal. cbn [rejections flat_map].
    fold (rejections c fail ls). unfold rejection, prompted. world.
Qed.

(** X8.  With neither a limit nor a timeout the loop never gives up: when
    every line of the console is rejected, all of them are read, each with
    its prompt and its failure message, the prompt is shown once more, and
    the call ends with [EOFError]; a default value is not used. *)
Theorem rejected_to_the_end a stdin w c fail :
  validate_parameters a = inr c ->
  apply_func a = Data VNone ->
  timeout a = VNone ->
  limit a = VNone ->
  (forall line, In line stdin ->
     c_validate c (VStr line) = Exc (fail line)
     /\ is_Exception (fail line) = true) ->
  _generic_input a stdin w
  = (Uncaught end_of_input,
     emits (rejections c fail stdin ++ [EvPrint (c_prompt c)]) (tick w)).
Proof.
  intros Hc Ha Ht Hl Hrej.
  destruct (validated_config _ _ Hc) as (_ & _ & _ & Hca & _).
  destruct (validated_budgets _ _ Hc) as [Hct Hcl].
  rewrite Ha in Hca. cbn in Hca. injection Hca as Hca.
  rewrite Ht in Hct. rewrite Hl in Hcl. cbn in Hct, Hcl.
  unfold _generic_input. rewrite Hc. cbn [time_time].
  now rewrite (loop_rejected_to_the_end c _ fail stdin (eq_sym Hca) Hct Hcl Hrej).
Qed.


(** *** What reaches the caller *)

Lemma attempt_uncaught c start_time tries line w e wf :
  attempt c start_time tries line w = (inr (Uncaught e), wf) ->
  (exists f, c_apply c = Some f /\ f (VStr line) = Exc e)
  \/ (exists x, pre_transform c line = Ok x
                /\ c_validate c x = Exc e /\ is_Exception e = false)
  \/ (exists x r g, pre_transform c line = Ok x
                    /\ c_validate c x = Ok r
                    /\ c_post c = Some g
                    /\ g (working_value x r) = Exc e).
Proof.
  intros H. rewrite attempt_cases in H. cbv zeta in H.
  destruct (pre_transform c line) as [x|e'] eqn:Hpre.
  - right. destruct (c_validate c x) as [r|e'] eqn:Hval.
    + right. destruct (timeout_exceeded _ _ _);
        [destruct (is_None (c_default c)); discriminate|].
      destruct (c_post c) as [g|]; [|discriminate].
      destruct (g (working_value x r)) as [v|e'] eqn:Hg; [discriminate|].
      injection H as -> _. exists x, r, g. now repeat split.
    + left. destruct (is_Exception e') eqn:He.
      * destruct (evaluate _ _ _ _ _);
          [destruct (is_None (c_default c))|]; discriminate.
      * injection H as -> _. exists x. now repeat split.
  - left. injection H as -> _. unfold pre_transform in Hpre.
    destruct (c_apply c) as [f|]; [|discriminate]. now exists f.
Qed.

(** X9.  A validation failure that is an [Exception] never reaches the
    caller.  An exception that passes through a call uncaught is the
    [EOFError] of the read, an exception of the pre-validation transform,
    an exception of the post-validation transform, or an exception of the
    validator that is not an [Exception]. *)
Theorem uncaught_exceptions_traced a stdin w e :
  fst (_generic_input a stdin w) = Uncaught e ->
  e = end_of_input
  \/ exists k c start_time tries line rest w1,
       run_iteration a stdin w k = Some (c, start_time, (tries, line, rest, w1))
       /\ ((exists f, c_apply c = Some f /\ f (VStr line) = Exc e)
           \/ (exists x, pre_transform c line = Ok x
                         /\ c_validate c x = Exc e /\ is_Exception e = false)
           \/ (exists x r g, pre_transform c line = Ok x
                             /\ c_validate c x = Ok r
                             /\ c_post c = Some g
                             /\ g (working_value x r) = Exc e)).
Proof.
  intros H. destruct (_generic_input a stdin w) as [o wf] eqn:E.
  cbn in H. subst o.
  destruct (run_ends _ _ _ _ _ E)
    as [(msg & [=] & _)|[[= ->]|(k & c & s & t & l & ls & w1 & Hk & Ha)]].
  - now left.
  - right. exists k, c, s, t, l, ls, w1. split; [exact Hk|].
    now apply attempt_uncaught in Ha.
Qed.

(** X10.  Without transforms, and with a validator whose failures are
    [Exception]s, every exception a call ends with is an instance of
    [PyInputPlusError], the [EOFError] of a console that has run dry
    excepted. *)
Theorem only_package_errors_reach_the_caller a stdin w :
  apply_func a = Data VNone ->
  post_validate_apply_func a = Data VNone ->
  (forall vf x e, validation_func a = Callable vf ->
                  vf x = Exc e -> is_Exception e = true) ->
  forall e, observe (fst (_generic_input a stdin w)) = Exc e ->
  e = end_of_input \/ isinstance e PyInputPlusError = true.
Proof.
  intros Ha Hp Hv e He.
  destruct (_generic_input a stdin w) as [o wf] eqn:E. cbn [fst] in He.
  destruct o as [v|v|msg|le| |e']; cbn in He; try discriminate;
    try (injection He as <-; right; reflexivity).
  - injection He as <-. right. now destruct le.
  - injection He as ->.
    destruct (run_ends _ _ _ _ _ E)
      as [(msg & [=] & _)|[[= ->]|(k & c & s & t & l & ls & w1 & Hk & Hat)]];
      [now left|].
    exfalso.
    destruct (run_at_iteration _ _ _ _ _ _ _ _ _ _ Hk) as [Hc _].
    destruct (validated_config _ _ Hc) as (_ & _ & Hvf & Hca & Hcp).
    rewrite Ha in Hca. rewrite Hp in Hcp. cbn in Hca, Hcp.
    injection Hca as Hca. injection Hcp as Hcp.
    destruct (attempt_uncaught _ _ _ _ _ _ _ Hat)
      as [(f & Hf & _)|[(x & _ & Hx & Hne)|(x & r & g & _ & _ & Hg & _)]];
      try congruence.
    rewrite (Hv _ _ _ Hvf Hx) in Hne. discriminate.
Qed.

(** *** A call without a timeout *)

Lemma attempt_without_timeout c tries line :
  c_timeout c = None ->
  exists s evs, forall start_time w,
    attempt c start_time tries line w = (s, emits evs w).
Proof.
  intros Ht.
  destruct (pre_transform c line) as [x|e] eqn:Hpre.
  - destruct (c_validate c x) as [r|e] eqn:Hval.
    + destruct (c_post c) as [g|] eqn:Hg.
      * eexists _, (pre_events c line ++ [EvValidate x]
                      ++ [EvPostValidate (working_value x r)]).
        intros s w. rewrite attempt_cases, Hpre, Hval. cbv zeta.
        unfold timeout_exceeded, after_clock. rewrite Ht, Hg.
        f_equal. world.
      * eexists _, (pre_events c line ++ [EvValidate x]).
        intros s w. rewrite attempt_cases, Hpre, Hval. cbv zeta.
        unfold timeout_exceeded, after_clock. rewrite Ht, Hg. reflexivity.
    + destruct (is_Exception e) eqn:He.
      * eexists _, (pre_events c line ++ [EvValidate x]
                      ++ [EvPrintExc e; EvLog e]).
        intros s w. rewrite attempt_cases, Hpre, Hval, He. cbv zeta.
        unfold evaluate, timeout_exceeded, after_clock. rewrite Ht.
        f_equal. world.
      * eexists _, (pre_events c line ++ [EvValidate x]).
        intros s w. rewrite attempt_cases, Hpre, Hval, He. reflexivity.
  - eexists _, (pre_events c line).
    intros s w. rewrite attempt_cases, Hpre. reflexivity.
Qed.

Lemma loop_without_timeout c stdin :
  c_timeout c = None ->
  forall tries,
  exists o evs, forall start_time w,
    loop c start_time tries stdin w = (o, emits evs w).
Proof.
  intros Ht.
  induction stdin as [|l ls IH]; intros tries.
  - eexists _, [EvPrint (c_prompt c)]. intros s w. reflexivity.
  - destruct (attempt_without_timeout c (tries + 1) l Ht) as (s & evs & Ha).
    destruct s as [[]|o].
    + destruct (IH (tries + 1)) as (o & evs' & Hl).
      exists o, ([EvPrint (c_prompt c); read_event c l] ++ evs ++ evs').
      intros st w. cbn [loop]. rewrite Ha, Hl. f_equal.
      unfold prompted. world.
    + exists o, ([EvPrint (c_prompt c); read_event c l] ++ evs).
      intros st w. cbn [loop]. rewrite Ha. f_equal.
      unfold prompted. world.
Qed.

(** X11.  Without a timeout a call does not depend on the clock: in any
    two worlds it ends the same way and adds the same events. *)
Theorem no_timeout_no_clock a stdin :
  timeout a = VNone ->
  exists o evs, forall w,
    fst (_generic_input a stdin w) = o
    /\ trace (snd (_generic_input a stdin w)) = trace w ++ evs.
Proof.
  intros Ht. unfold _generic_input.
  destruct (validate_parameters a) as [msg|c] eqn:Hc.
  - exists (RaiseConfig msg), []. intros w. cbn. now rewrite app_nil_r.
  - destruct (validated_budgets _ _ Hc) as [Hct _].
    rewrite Ht in Hct. cbn in Hct.
    destruct (loop_without_timeout c stdin Hct 0) as (o & evs & Hl).
    exists o, evs. intros w. cbn [time_time]. rewrite Hl. now split.
Qed.


(** X12.  Once the timeout has elapsed, the next read that is validated
    ends the call, whether the line is accepted or rejected: the caller
    gets the default, or [PyIPTimeoutError] when there is none, whatever
    the retry limit says, and nothing more is prompted or read. *)
Theorem elapsed_timeout_ends_the_call
    a stdin w k c start_time tries line rest w1 x :
  run_iteration a stdin w k = Some (c, start_time, (tries, line, rest, w1)) ->
  pre_transform c line = Ok x ->
  match c_validate c x with
  | Ok _ => True
  | Exc e => is_Exception e = true
  end ->
  timeout_exceeded (current_time w1) start_time (c_timeout c) = true ->
  observe (fst (_generic_input a stdin w))
  = (if is_None (default_value a)
     then Exc (mkExc PyIPTimeoutError EmptyString)
     else Ok (default_value a))
  /\ exists evs,
       trace (snd (_generic_input a stdin w)) = trace w1 ++ evs
       /\ forallb (fun e => negb (is_console e)) evs = true.
Proof.
  intros Hk Hpre Hval Hto.
  destruct (run_at_iteration _ _ _ _ _ _ _ _ _ _ Hk) as [Hc ->].
  destruct (validated_config _ _ Hc) as (Hd & _).
  destruct (attempt c start_time tries line w1) as [s wf] eqn:E.
  pose proof (attempt_no_console _ _ _ _ _ _ _ E) as Hquiet.
  rewrite attempt_cases, Hpre in E. cbv zeta in E. unfold evaluate in E.
  rewrite Hto, Hd in E.
  destruct (c_validate c x) as [r|e].
  - injection E as <- <-. cbn [fst snd]. split.
    + now destruct (is_None (default_value a)).
    + destruct (is_None (default_value a)); exact Hquiet.
  - rewrite Hval in E. injection E as <- <-.
    destruct (is_None (default_value a)); cbn [fst snd]; split;
      try reflexivity; exact Hquiet.
Qed.


End Loop.

Section WrapperProperties.

Context {F : FloatOps} {X : Externals}.

(** A keyword of the old spelling stops the call before the loop runs. *)
Lemma call_with_default_keyword prompt default rest stdin w :
  call_generic_input (("prompt", Data prompt) :: ("default", default) :: rest)
    stdin w
  = (Exc unexpected_default, w).
Proof. reflexivity. Qed.

(** What the last lines of the wrappers do with a value the loop hands
    back: a value the conversion rejects with [ValueError] is kept, and a
    configured transform is applied to it. *)
Lemma wrapper_tail_transforms conv g r w e :
  conv r = Exc e -> is_ValueError e = true ->
  match convert_or_keep conv r with
  | Exc e => (Exc e, w)
  | Ok r' => post_validate (Callable g) r' w
  end = (g r, emit (EvPostValidate r) w).
Proof.
  intros Hc He. unfold convert_or_keep. now rewrite Hc, He.
Qed.

(** C10.  [inputInt] and [inputFloat] call the loop with the keywords
    [default], [applyFunc] and [validationFunc], which are not parameters
    of [_generic_input]: once PySimpleValidate has accepted the bounds,
    the call raises [TypeError] and the wrapper ends there.  Nothing is
    prompted or read, and neither the default nor [postValidateApplyFunc]
    is used. *)
Theorem numeric_wrappers_stop_at_the_call
    prompt default blank timeout limit strip allowRegexes blockRegexes
    applyFunc postValidateApplyFunc min max lessThan greaterThan stdin w :
  let stopped :=
    match pysv_validateParamsFor_validateNum min max lessThan greaterThan with
    | Exc e => (Exc e, w)
    | Ok _ => (Exc unexpected_default, w)
    end in
  inputInt prompt default blank timeout limit strip allowRegexes blockRegexes
    applyFunc postValidateApplyFunc min max lessThan greaterThan stdin w
  = stopped
  /\ inputFloat prompt default blank timeout limit strip allowRegexes blockRegexes
       applyFunc postValidateApplyFunc min max lessThan greaterThan stdin w
     = stopped.
Proof.
  unfold inputInt, inputFloat.
  destruct (pysv_validateParamsFor_validateNum min max lessThan greaterThan);
    split; reflexivity.
Qed.

End WrapperProperties.

Section CallProperties.

Context {F : FloatOps}.

Lemma bound_validation_func kw :
  keyword "validation_func" kw = None ->
  validation_func (bind_keywords kw) = Data VNone.
Proof. intros H. cbn. unfold func_keyword. now rewrite H. Qed.

(** X13.  [validation_func] has the default [None] in the signature, but a
    call that does not pass it never reaches the loop: whatever the other
    keywords are, it ends in a configuration error before anything is
    prompted or read. *)
Theorem call_needs_validation_func kw stdin w :
  unexpected_keyword kw = None ->
  keyword "validation_func" kw = None ->
  exists msg,
    call_generic_input kw stdin w = (Exc (mkExc PyInputPlusError msg), w).
Proof.
  intros Hkw Hv. unfold call_generic_input. rewrite Hkw.
  assert (H : exists msg, validate_parameters (bind_keywords kw) = inl msg).
  { unfold validate_parameters. rewrite (bound_validation_func kw Hv).
    destruct (prompt _); try (eexists; reflexivity).
    destruct (negb _); [eexists; reflexivity|].
    destruct (negb _); eexists; reflexivity. }
  destruct H as [msg H]. exists msg.
  unfold _generic_input. now rewrite H.
Qed.

End CallProperties.

Section MoreWrapperProperties.

Context {F : FloatOps} {X : Externals} {P : PreValidation}.

(** X14.  [inputStr], [inputCustom] and [inputNum] pass the keywords
    [default], [applyFunc], [postValidateApplyFunc] and [validationFunc],
    which [_generic_input] does not have: each of them ends in the
    argument error of PySimpleValidate or in the [TypeError] of the call,
    and none of them prompts, reads or calls a validator. *)
Theorem string_wrappers_stop_at_the_call
    customValidationFunc
    prompt default blank timeout limit strip allowRegexes blockRegexes
    applyFunc postValidateApplyFunc min max greaterThan lessThan stdin w :
  let stopped (checked : result) :=
    match checked with
    | Exc e => (Exc e, w)
    | Ok _ => (Exc unexpected_default, w)
    end in
  inputStr prompt default blank timeout limit strip allowRegexes blockRegexes
    applyFunc postValidateApplyFunc stdin w
  = stopped (pysv_validateGenericParameters blank strip allowRegexes blockRegexes)
  /\ inputCustom customValidationFunc
       prompt default blank timeout limit strip allowRegexes blockRegexes
       applyFunc postValidateApplyFunc stdin w
     = stopped (pysv_validateGenericParameters blank strip allowRegexes
                  blockRegexes)
  /\ inputNum prompt default blank timeout limit strip allowRegexes blockRegexes
       applyFunc postValidateApplyFunc min max greaterThan lessThan stdin w
     = stopped (pysv_validateParamsFor_validateNum min max lessThan greaterThan).
Proof.
  unfold inputStr, inputCustom, inputNum.
  destruct (pysv_validateGenericParameters blank strip allowRegexes blockRegexes);
    destruct (pysv_validateParamsFor_validateNum min max lessThan greaterThan);
    repeat split; reflexivity.
Qed.

(** X15.  [inputPassword] looks at the mask before anything else: a mask
    of more than one character is a configuration error whatever the other
    arguments are, a mask that is a number has no length and raises
    [TypeError], and [None], the empty mask and a one-character mask go on
    to the validation of the other arguments and to the call, which stops
    as for the other wrappers.  Nothing is prompted or read. *)
Theorem inputPassword_checks_the_mask_first
    prompt mask default blank timeout limit strip allowRegexes blockRegexes
    applyFunc postValidateApplyFunc stdin w :
  let result :=
    inputPassword prompt mask default blank timeout limit strip
      allowRegexes blockRegexes applyFunc postValidateApplyFunc stdin w in
  (forall m, mask = VStr m -> (1 < length m)%nat -> result = (Exc bad_mask, w))
  /\ (mask = VNone \/ (exists m, mask = VStr m /\ (length m <= 1)%nat) ->
      result
      = match pysv_validateGenericParameters blank strip allowRegexes
                blockRegexes with
        | Exc e => (Exc e, w)
        | Ok _ => (Exc unexpected_default, w)
        end)
  /\ ((exists b, mask = VBool b) \/ (exists z, mask = VInt z)
      \/ (exists x, mask = VFloat x) ->
      exists msg, result = (Exc (mkExc TypeError msg), w))
  /\ snd result = w.
Proof.
  cbv zeta. unfold inputPassword. repeat split.
  - intros m -> Hm. cbn.
    assert (E : (Z.of_nat (length m) >? 1) = true) by (apply Z.gtb_lt; lia).
    now rewrite E.
  - intros [->|(m & -> & Hm)]; cbn.
    + now destruct (pysv_validateGenericParameters _ _ _ _).
    + assert (E : (Z.of_nat (length m) >? 1) = false).
      { rewrite Z.gtb_ltb. apply Z.ltb_ge. lia. }
      rewrite E. now destruct (pysv_validateGenericParameters _ _ _ _).
  - intros [[b ->]|[[z ->]|[x ->]]]; cbn; eexists; reflexivity.
  - destruct (is_None mask); [|destruct (py_len mask) as [n|e];
                                 [destruct (n >? 1)|]]; cbn;
      try reflexivity;
      now destruct (pysv_validateGenericParameters _ _ _ _).
Qed.

End MoreWrapperProperties.

(** * The theorems at concrete calls *)

Import Examples.

#[local] Existing Instance ZFloat.

#[local] Existing Instance stubs.

Lemma Z_flt_fle_trans (x y z : Z) :
  (x <? y)%Z = true -> (y <=? z)%Z = true -> (x <? z)%Z = true.
Proof. rewrite !Z.ltb_lt, Z.leb_le. lia. Qed.

(** Both budgets are exceeded at the third second with five tries against a
    limit of three: the answer is the timeout. *)
Lemma check_limit_and_timeout_decides_witness :
  fst (_check_limit_and_timeout 0 (Some 1) 5 (Some 3) (tick world0))
  = Some TimeoutExceeded.
Proof.
  exact (proj2 (proj2 (proj2 (proj2
           (check_limit_and_timeout_decides 0 (Some 1) 5 (Some 3) (tick world0)))))
           eq_refl eq_refl).
Defined.

(** C9, as stated, fails: the same arguments give no outcome at second 0
    and the timeout at second 2. *)
Lemma same_arguments_different_answers :
  let first := _check_limit_and_timeout 0 (Some 1) 0 None world0 in
  let second := _check_limit_and_timeout 0 (Some 1) 0 None (snd first) in
  fst first = None /\ fst second = Some TimeoutExceeded /\ fst first <> fst second.
Proof. cbv zeta. repeat split. discriminate. Qed.

(** The retry limit is reached at second 0 with one try; at second 2 with
    two tries the evaluator still signals an outcome. *)
Lemma check_limit_and_timeout_stable_witness :
  fst (_check_limit_and_timeout 0 (Some 1) 1 (Some 1) frozen)
  = Some RetryLimitExceeded
  /\ fst (_check_limit_and_timeout 0 (Some 1) 2 (Some 1) (tick world0)) <> None.
Proof.
  split; [reflexivity|].
  apply (proj2 (proj2 (check_limit_and_timeout_stable (F := ZFloat)
                         0 (Some 1) (Some 1)))
           Z_flt_fle_trans 1 2 frozen (tick world0)).
  - lia.
  - reflexivity.
  - discriminate.
Defined.

(** A default, a retry limit of one, and a validator that rejects: the
    first failed attempt returns the default. *)
Lemma default_replaces_limit_errors_witness :
  fst (_generic_input
         (with_validator rejects_all (VStr "N/A") VNone (VInt 1) (Data VNone) VNone)
         ["abc"] world0)
  = ReturnDefault (VStr "N/A").
Proof.
  edestruct (default_replaces_limit_errors (F := ZFloat)
               (with_validator rejects_all (VStr "N/A") VNone (VInt 1)
                  (Data VNone) VNone)
               ["abc"] world0) as (_ & _ & H); [discriminate|].
  edestruct (H 0%nat) as [Hfail _]; [reflexivity | reflexivity |].
  eapply Hfail; reflexivity.
Defined.

(** A timeout of one second, a clock that shows two seconds at the
    re-check, and a validator that accepts: the default is returned. *)
Lemma timeout_rechecked_after_success_witness :
  fst (_generic_input
         (with_validator accepts_all (VStr "N/A") (VInt 1) VNone (Callable shout) VNone)
         ["hello"] world0)
  = ReturnDefault (VStr "N/A").
Proof.
  edestruct (timeout_rechecked_after_success (F := ZFloat)
               (with_validator accepts_all (VStr "N/A") (VInt 1) VNone
                  (Callable shout) VNone)
               ["hello"] world0 0%nat) as [H _];
    [reflexivity | reflexivity | reflexivity | reflexivity | reflexivity |].
  rewrite H. reflexivity.
Defined.

(** C4, as stated, fails: the only attempt fails, the evaluator signals the
    retry limit, the call raises it, and the message has been displayed. *)
Lemma message_displayed_before_limit_error :
  let run :=
    _generic_input
      (with_validator rejects_all VNone VNone (VInt 1) (Data VNone) VNone)
      ["abc"] world0 in
  fst (_check_limit_and_timeout 0 None 1 (Some 1) (tick world0))
  = Some RetryLimitExceeded
  /\ fst run = RaiseLimitOrTimeout RetryLimitExceeded
  /\ trace (snd run)
     = [EvPrint "> "; EvInput "abc"; EvValidate (VStr "abc");
        EvPrintExc invalid; EvLog invalid].
Proof. cbv zeta. repeat split. Qed.

Lemma validation_message_always_displayed_witness :
  _generic_input
    (with_validator rejects_all (VStr "N/A") VNone (VInt 1) (Data VNone) VNone)
    ["abc"] world0
  = (ReturnDefault (VStr "N/A"),
     mkWorld (clock world0) 1
       [EvPrint "> "; EvInput "abc"; EvValidate (VStr "abc");
        EvPrintExc invalid; EvLog invalid]).
Proof.
  edestruct (validation_message_always_displayed (F := ZFloat)
               (with_validator rejects_all (VStr "N/A") VNone (VInt 1)
                  (Data VNone) VNone)
               ["abc"] world0 0%nat) as (_ & H & _);
    [reflexivity | reflexivity | reflexivity | reflexivity |].
  rewrite (H RetryLimitExceeded eq_refl). reflexivity.
Defined.

(** C5, as stated, fails: an empty mask is not one character long and is
    accepted; the loop prompts and reads with it. *)
Lemma empty_mask_accepted :
  let run :=
    _generic_input
      (with_validator accepts_all VNone VNone VNone (Data VNone) (VStr EmptyString))
      ["secret"] frozen in
  length EmptyString <> 1%nat
  /\ fst run = ReturnValue (VStr "secret")
  /\ trace (snd run)
     = [EvPrint "> "; EvPwinput EmptyString "secret"; EvValidate (VStr "secret")].
Proof. cbv zeta. repeat split. discriminate. Qed.

Lemma mask_longer_than_one_character_rejected_witness :
  _generic_input
    (with_validator accepts_all VNone VNone VNone (Data VNone) (VStr "**"))
    ["secret"] frozen
  = (RaiseConfig "passwordMask argument must be None or a single-character string.",
     frozen).
Proof.
  edestruct (proj2 (mask_longer_than_one_character_rejected (F := ZFloat)
               (with_validator accepts_all VNone VNone VNone (Data VNone)
                  (VStr "**"))
               ["secret"] frozen)) as [msg H].
  - discriminate.
  - intros m [= <-]. cbn. lia.
  - rewrite H. revert H. cbn. intros [= <-]. reflexivity.
Defined.

(** A validated ["hi"] with the transform [shout] comes back as ["hi!"]. *)
Lemma post_validate_only_on_validated_value_witness :
  exists x r,
    accepts_all x = Ok r /\ shout (working_value x r) = Ok (VStr "hi!").
Proof.
  edestruct (proj1 (proj2 (post_validate_only_on_validated_value (F := ZFloat)
               (with_validator accepts_all (VStr "N/A") VNone VNone
                  (Callable shout) VNone)
               ["hi"] frozen)) shout (VStr "hi!"))
    as (k & c & s & t & l & ls & w1 & x & r & Hk & Hpre & Hval & Hg & _);
    [reflexivity | reflexivity |].
  exists x, r. split; [|exact Hg].
  destruct (run_at_iteration _ _ _ _ _ _ _ _ _ _ Hk) as [Hc _].
  injection Hc as <-. exact Hval.
Defined.

(** One attempt with a limit of zero: [tries >= limit] and the value is
    returned all the same. *)
Lemma success_ignores_retry_limit_witness :
  fst (_generic_input
         (with_validator accepts_all VNone (VInt 5) (VInt 0) (Callable shout) VNone)
         ["hi"] frozen)
  = ReturnValue (VStr "hi!").
Proof.
  edestruct (success_ignores_retry_limit (F := ZFloat)
               (with_validator accepts_all VNone (VInt 5) (VInt 0)
                  (Callable shout) VNone)
               ["hi"] frozen 0%nat) as (_ & _ & _ & H);
    [reflexivity | reflexivity | reflexivity | reflexivity |].
  apply (H shout); reflexivity.
Defined.

(** A pre-validation transform that raises, with a default configured: the
    exception reaches the caller. *)
Lemma transform_exceptions_propagate_witness :
  fst (_generic_input (with_transform raises_boom accepts_all (VStr "N/A"))
         ["abc"] world0)
  = Uncaught boom.
Proof.
  edestruct (transform_exceptions_propagate (F := ZFloat)
               (with_transform raises_boom accepts_all (VStr "N/A"))
               ["abc"] world0 0%nat) as [H _]; [reflexivity|].
  destruct (H raises_boom boom eq_refl eq_refl) as [-> _]. reflexivity.
Defined.

(** C10 at a concrete call: [inputInt(prompt="> ", default="N/A", limit=1,
    postValidateApplyFunc=shout)] with ["abc"] on the console raises
    [TypeError]; nothing is prompted and the default is not returned. *)
Lemma inputInt_raises_TypeError :
  inputInt (VStr "> ") (VStr "N/A") (VBool false) VNone (VInt 1) VNone VNone VNone
    (Data VNone) (Callable shout) VNone VNone VNone VNone ["abc"] world0
  = (Exc unexpected_default, world0).
Proof. reflexivity. Qed.

(** ** The scenarios of the specification *)

(** A limit of two and a validator that always fails, no default: the
    second failed attempt raises the retry-limit error. *)
Example two_failures_reach_the_limit :
  let run :=
    _generic_input
      (with_validator rejects_all VNone VNone (VInt 2) (Data VNone) VNone)
      ["a"; "b"; "c"] frozen in
  fst run = RaiseLimitOrTimeout RetryLimitExceeded
  /\ trace (snd run)
     = [EvPrint "> "; EvInput "a"; EvValidate (VStr "a");
        EvPrintExc invalid; EvLog invalid;
        EvPrint "> "; EvInput "b"; EvValidate (VStr "b");
        EvPrintExc invalid; EvLog invalid].
Proof. cbv zeta. split; reflexivity. Qed.

(** A limit of three, one failure and then a success: the second line is
    returned. *)
Example second_attempt_succeeds :
  fst (_generic_input
         (with_validator rejects_bad VNone VNone (VInt 3) (Data VNone) VNone)
         ["bad"; "good"] frozen)
  = ReturnValue (VStr "good").
Proof. reflexivity. Qed.

(** A validator that normalizes: the normalized value is returned, not the
    raw input. *)
Example normalized_value_returned :
  fst (_generic_input
         (with_validator normalizes VNone VNone VNone (Data VNone) VNone)
         ["yes"] frozen)
  = ReturnValue (VStr "YES").
Proof. reflexivity. Qed.

(** A default, a timeout that has passed at the first failure, a validator
    that always fails: the default is returned. *)
Example default_after_timeout :
  fst (_generic_input
         (with_validator rejects_all (VStr "N/A") (VInt 1) VNone (Data VNone) VNone)
         ["a"; "b"] world0)
  = ReturnDefault (VStr "N/A").
Proof. reflexivity. Qed.

(** No default, no limit, no timeout and a console that runs dry: the read
    raises [EOFError]. *)
Example console_runs_dry :
  fst (_generic_input
         (with_validator rejects_all VNone VNone VNone (Data VNone) VNone)
         ["a"] frozen)
  = Uncaught (mkExc EOFError "EOF when reading a line").
Proof. reflexivity. Qed.

(** ** Further properties at concrete calls *)

Import MoreExamples.

#[local] Existing Instance passes.

(** The second iteration of a call whose first line is rejected. *)
Lemma iteration_reads_in_order_witness :
  2 = Z.of_nat 1 + 1
  /\ nth_error ["bad"; "good"] 1 = Some "good"
  /\ [] = skipn 2 ["bad"; "good"]
  /\ 0 = current_time frozen.
Proof.
  eapply (iteration_reads_in_order (F := ZFloat) three_tries ["bad"; "good"]
            frozen 1).
  reflexivity.
Defined.

(** That call reaches its second iteration because its first line was
    rejected with the limit of three not yet reached. *)
Lemma reprompt_only_after_failure_witness :
  exists tries_j line_j rest_j w_j x e,
    run_iteration three_tries ["bad"; "good"] frozen 0
    = Some (three_tries_config, 0, (tries_j, line_j, rest_j, w_j))
    /\ pre_transform three_tries_config line_j = Ok x
    /\ c_validate three_tries_config x = Exc e
    /\ is_Exception e = true
    /\ evaluate (current_time w_j) 0 (c_timeout three_tries_config) tries_j
         (c_limit three_tries_config)
       = None.
Proof.
  eapply (reprompt_only_after_failure (F := ZFloat) three_tries ["bad"; "good"]
            frozen 1 three_tries_config 0).
  - reflexivity.
  - lia.
Defined.

(** Two lines are read of a console of three, in order, each after the
    prompt. *)
Lemma console_read_in_order_witness :
  exists evs n,
    trace (snd (_generic_input two_tries ["a"; "b"; "c"] frozen))
    = trace frozen ++ evs
    /\ lines_read evs = firstn n ["a"; "b"; "c"]
    /\ (n <= 3)%nat
    /\ (prompts_shown evs = repeat "> " n
        \/ (n = 3%nat
            /\ fst (_generic_input two_tries ["a"; "b"; "c"] frozen)
               = Uncaught end_of_input
            /\ prompts_shown evs = repeat "> " (S n))).
Proof.
  destruct (console_read_in_order (F := ZFloat) two_tries ["a"; "b"; "c"] frozen)
    as (evs & n & Ht & Hl & Hn & Hp).
  exists evs, n. repeat split; try assumption.
  apply Hp. reflexivity.
Defined.

(** A limit of two and a console of three lines, all rejected. *)
Lemma reads_bounded_by_limit_witness :
  exists evs,
    trace (snd (_generic_input two_tries ["a"; "b"; "c"] frozen))
    = trace frozen ++ evs
    /\ Z.of_nat (List.length (lines_read evs)) <= Z.max 1 2.
Proof.
  apply (reads_bounded_by_limit (F := ZFloat) two_tries ["a"; "b"; "c"] frozen 2).
  reflexivity.
Defined.

(** The retry-limit error of that call shows that a limit is set. *)
Lemma giving_up_needs_a_budget_witness : limit two_tries <> VNone.
Proof.
  apply (proj1 (giving_up_needs_a_budget (F := ZFloat) two_tries
                  ["a"; "b"; "c"] frozen)).
  reflexivity.
Defined.

Lemma rejected_until_limit_witness :
  _generic_input two_tries ["a"; "b"; "c"] frozen
  = (RaiseLimitOrTimeout RetryLimitExceeded,
     emits (rejections two_tries_config (fun _ => invalid) ["a"; "b"])
       (tick frozen))
  /\ lines_read (rejections two_tries_config (fun _ => invalid) ["a"; "b"])
     = ["a"; "b"].
Proof.
  apply (rejected_until_limit (F := ZFloat) two_tries ["a"; "b"; "c"] frozen
           two_tries_config (fun _ => invalid) 2);
    try reflexivity.
  - cbn. lia.
  - intros line _. split; reflexivity.
Defined.

(** Without budgets the default ["N/A"] is not used. *)
Lemma rejected_to_the_end_witness :
  _generic_input no_budget ["a"; "b"] frozen
  = (Uncaught end_of_input,
     emits (rejections no_budget_config (fun _ => invalid) ["a"; "b"]
              ++ [EvPrint "> "])
       (tick frozen)).
Proof.
  apply (rejected_to_the_end (F := ZFloat) no_budget ["a"; "b"] frozen
           no_budget_config (fun _ => invalid));
    try reflexivity.
  intros line _. split; reflexivity.
Defined.

(** The exception of a pre-validation transform that raises. *)
Lemma uncaught_exceptions_traced_witness :
  boom = end_of_input
  \/ exists k c start_time tries line rest w1,
       run_iteration (with_transform raises_boom accepts_all (VStr "N/A"))
         ["abc"] world0 k
       = Some (c, start_time, (tries, line, rest, w1))
       /\ ((exists f, c_apply c = Some f /\ f (VStr line) = Exc boom)
           \/ (exists x, pre_transform c line = Ok x
                         /\ c_validate c x = Exc boom
                         /\ is_Exception boom = false)
           \/ (exists x r g, pre_transform c line = Ok x
                             /\ c_validate c x = Ok r
                             /\ c_post c = Some g
                             /\ g (working_value x r) = Exc boom)).
Proof.
  apply (uncaught_exceptions_traced (F := ZFloat)
           (with_transform raises_boom accepts_all (VStr "N/A")) ["abc"] world0).
  reflexivity.
Defined.

(** The retry-limit error is an instance of [PyInputPlusError]. *)
Lemma only_package_errors_reach_the_caller_witness :
  mkExc RetryLimitError EmptyString = end_of_input
  \/ isinstance (mkExc RetryLimitError EmptyString) PyInputPlusError = true.
Proof.
  apply (only_package_errors_reach_the_caller (F := ZFloat) two_tries
           ["a"; "b"; "c"] frozen); try reflexivity.
  intros vf x e [= <-] [= <-]. reflexivity.
Defined.

Lemma no_timeout_no_clock_witness :
  exists o evs, forall w,
    fst (_generic_input two_tries ["a"; "b"; "c"] w) = o
    /\ trace (snd (_generic_input two_tries ["a"; "b"; "c"] w)) = trace w ++ evs.
Proof.
  apply (no_timeout_no_clock (F := ZFloat) two_tries ["a"; "b"; "c"]).
  reflexivity.
Defined.

(** A timeout of one second that has elapsed when the first line, which
    is rejected, has been read: the default comes back. *)
Lemma elapsed_timeout_ends_the_call_witness :
  observe (fst (_generic_input one_second ["a"; "b"] world0)) = Ok (VStr "N/A").
Proof.
  edestruct (elapsed_timeout_ends_the_call (F := ZFloat) one_second ["a"; "b"]
               world0 0%nat) as [H _];
    [reflexivity | reflexivity | reflexivity | reflexivity |].
  exact H.
Defined.

(** [_generic_input(prompt="> ")] *)
Lemma call_needs_validation_func_witness :
  exists msg,
    call_generic_input [("prompt", Data (VStr "> "))] ["a"] frozen
    = (Exc (mkExc PyInputPlusError msg), frozen).
Proof.
  apply (call_needs_validation_func (F := ZFloat)
           [("prompt", Data (VStr "> "))] ["a"] frozen); reflexivity.
Defined.

(** [inputPassword(mask="**")] *)
Lemma inputPassword_checks_the_mask_first_witness :
  inputPassword (VStr "> ") (VStr "**") VNone (VBool false) VNone VNone
    (VStr EmptyString) VNone VNone (Data VNone) (Data VNone) ["secret"] frozen
  = (Exc bad_mask, frozen).
Proof.
  apply (proj1 (inputPassword_checks_the_mask_first (F := ZFloat)
                  (VStr "> ") (VStr "**") VNone (VBool false) VNone VNone
                  (VStr EmptyString) VNone VNone (Data VNone) (Data VNone)
                  ["secret"] frozen) "**" eq_refl).
  cbn. lia.
Defined.
